(** * AWS Glue Crawler action: the orchestration of [src/index.ts]

    A shallow embedding of [run], the single function of the action, with
    the runner's inputs, the three Glue operations and the clock as an
    explicit world, and the action's visible effects (logs, outputs, the
    failure signal, remote calls, sleeps) as a chronological trace.

    [run] is written in a small state and exception monad; its
    [while (true)] loop takes one unit of fuel per iteration, and a run
    whose fuel is spent is still pending.  Strings are the bytes of UTF-8
    text; the numbers of [run] are [NaN], the infinities and the integers
    that are doubles. *)

From stdpp Require Import gmap strings list pretty.
From Stdlib Require Import ZArith String Ascii Lia.

Open Scope string_scope.
Open Scope Z_scope.
Open Scope list_scope.

(** ** JavaScript values used by [run] *)

(** What a [throw] or a rejected promise carries.  The handler of [run]
    only tells [Error] instances (which have a [message]) from every other
    value. *)
Inductive thrown : Type :=
| ErrorInstance (message : string)
| OtherValue (shown : string).

(** A JavaScript number as [run] meets it: [parseInt] yields [NaN], an
    integer that is a double, or an infinity.  [Num z] is the number [z]. *)
Inductive jsnum : Type :=
| NaN
| Num (z : Z)
| Infinity (negative : bool).

(** The integers that every double arithmetic keeps exact: up to 2^53 in
    magnitude. *)
Definition safe_integer (z : Z) : bool := Z.abs z <=? 2 ^ 53.

(** The double nearest to the integer [z], ties to the even significand
    (53 bits), and an infinity from 2^1024 - 2^970 on. *)
Definition round_double (z : Z) : jsnum :=
  if safe_integer z then Num z
  else
    let a := Z.abs z in
    let e := Z.log2 a - 52 in
    let q := a / 2 ^ e in
    let r := a mod 2 ^ e in
    let half := 2 ^ (e - 1) in
    let q' := if (half <? r) || ((r =? half) && Z.odd q) then q + 1 else q in
    let v := q' * 2 ^ e in
    if 2 ^ 1024 <=? v then Infinity (z <? 0)
    else Num (if z <? 0 then - v else v).

(** [a * k] for a numeric literal [k].  The product of integers is kept
    exact: it is the engine's while it stays a safe integer, and beyond
    that it compares as the engine's with every elapsed time that is one. *)
Definition js_mul (a : jsnum) (k : Z) : jsnum :=
  match a with
  | NaN => NaN
  | Num z => Num (z * k)
  | Infinity negative =>
      if k =? 0 then NaN else Infinity (xorb negative (k <? 0))
  end.

(** [a > b] for an integer [a]: every comparison with [NaN] is false. *)
Definition js_gt (a : Z) (b : jsnum) : bool :=
  match b with
  | NaN => false
  | Num z => z <? a
  | Infinity negative => negative
  end.

(** *** [Number::toString] beyond the safe integers *)

(** Whether the integer [c] rounds to the double [a] (positive, beyond
    2^53): it lies no further than half way to the neighbours of [a], the
    half-way points included when the significand of [a] is even. *)
Definition rounds_to (a c : Z) : bool :=
  let e := Z.log2 a - 52 in
  let m := a / 2 ^ e in
  let up := 2 ^ e in
  let down := if m =? 2 ^ 52 then 2 ^ (e - 1) else 2 ^ e in
  if Z.even m then (2 * a - down <=? 2 * c) && (2 * c <=? 2 * a + up)
  else (2 * a - down <? 2 * c) && (2 * c <? 2 * a + up).

(** The multiple of [p] that rounds to [a] and is nearest to it, the even
    one of two at the same distance. *)
Definition nearest_multiple (a p : Z) : option Z :=
  let below := (a / p) * p in
  let above := below + p in
  match rounds_to a below, rounds_to a above with
  | true, true =>
      if a - below <? above - a then Some below
      else if above - a <? a - below then Some above
      else if Z.even (below / p) then Some below else Some above
  | true, false => Some below
  | false, true => Some above
  | false, false => None
  end.

(** The integer with the fewest significant digits that rounds to [a]:
    the first multiple of a power of ten found from 10^j downwards. *)
Fixpoint shortest (a : Z) (j : nat) : Z :=
  match j with
  | O => a
  | S j' =>
      match nearest_multiple a (10 ^ Z.of_nat j) with
      | Some v => v
      | None => shortest a j'
      end
  end.

Fixpoint strip_zeros (s : string) : string :=
  match s with
  | String "0" r => strip_zeros r
  | _ => s
  end.

(** [d.ddd e+n] for the digits of an integer of more than 21 digits. *)
Definition exponent_form (digits : string) : string :=
  let n := String.length digits in
  match String.rev (strip_zeros (String.rev digits)) with
  | String d "" => String d "" +:+ "e+" +:+ pretty (Z.of_nat (n - 1))
  | String d rest => String d "" +:+ "." +:+ rest +:+ "e+" +:+ pretty (Z.of_nat (n - 1))
  | "" => ""
  end.

(** The text of a positive double beyond 2^53: its shortest digits, as an
    integer below 10^21 and in exponent form from there on. *)
Definition big_text (a : Z) : string :=
  let digits := pretty (shortest a (Z.to_nat (Z.log2 a))) in
  if (String.length digits <=? 21)%nat then digits else exponent_form digits.

(** [`${n}`] for a number: the decimal numeral of a safe integer. *)
Definition js_num_to_string (n : jsnum) : string :=
  match n with
  | NaN => "NaN"
  | Infinity false => "Infinity"
  | Infinity true => "-Infinity"
  | Num z =>
      if safe_integer z then pretty z
      else if z <? 0 then "-" +:+ big_text (- z) else big_text z
  end.

(** [`${s}`] for a possibly undefined string. *)
Definition js_opt_to_string (s : option string) : string :=
  match s with
  | Some v => v
  | None => "undefined"
  end.

(** [s || d] on strings: the empty string is falsy. *)
Definition js_or (s d : string) : string :=
  if String.eqb s "" then d else s.

(** [x?.toString() || d] for an optional integer. *)
Definition js_opt_num_or (x : option Z) (d : string) : string :=
  match x with
  | Some z => js_or (pretty z) d
  | None => d
  end.

(** ** Strings: [trim] and [parseInt(_, 10)] *)

(** A string is held as the bytes of its UTF-8 text. *)
Definition bytes (l : list nat) : string :=
  string_of_list_ascii (map ascii_of_nat l).

(** The white space that [trim] and [parseInt] skip (WhiteSpace and
    LineTerminator): TAB, LF, VT, FF, CR, SPACE, then U+00A0, U+1680,
    U+2000 to U+200A, U+2028, U+2029, U+202F, U+205F, U+3000 and U+FEFF. *)
Definition white_space : list string :=
  map bytes
    [[9]; [10]; [11]; [12]; [13]; [32]; [194; 160]; [225; 154; 128];
     [226; 128; 128]; [226; 128; 129]; [226; 128; 130]; [226; 128; 131];
     [226; 128; 132]; [226; 128; 133]; [226; 128; 134]; [226; 128; 135];
     [226; 128; 136]; [226; 128; 137]; [226; 128; 138];
     [226; 128; 168]; [226; 128; 169]; [226; 128; 175]; [226; 129; 159];
     [227; 128; 128]; [239; 187; 191]]%nat.

(** White space of one byte. *)
Definition is_space (c : ascii) : bool :=
  let n := nat_of_ascii c in
  ((9 <=? n)%nat && (n <=? 13)%nat) || (n =? 32)%nat.

(** White space of two and of three bytes. *)
Definition space2 (a b : ascii) : bool :=
  (nat_of_ascii a =? 194)%nat && (nat_of_ascii b =? 160)%nat.

Definition space3 (a b c : ascii) : bool :=
  let x := nat_of_ascii a in
  let y := nat_of_ascii b in
  let z := nat_of_ascii c in
  ((x =? 225) && (y =? 154) && (z =? 128))%nat ||
  ((x =? 226) && (y =? 128) &&
   (((128 <=? z) && (z <=? 138)) || (z =? 168) || (z =? 169) || (z =? 175)))%nat ||
  ((x =? 226) && (y =? 129) && (z =? 159))%nat ||
  ((x =? 227) && (y =? 128) && (z =? 128))%nat ||
  ((x =? 239) && (y =? 187) && (z =? 191))%nat.

(** The first byte of a white space of several bytes, and a byte that is
    not the first of its character. *)
Definition is_lead (c : ascii) : bool :=
  let n := nat_of_ascii c in
  ((n =? 194) || (n =? 225) || (n =? 226) || (n =? 227) || (n =? 239))%nat.

Definition is_continuation (c : ascii) : bool :=
  let n := nat_of_ascii c in
  ((128 <=? n) && (n <=? 191))%nat.

Fixpoint trim_start (s : string) : string :=
  match s with
  | String a r =>
      if is_space a then trim_start r
      else if is_lead a then
        match r with
        | String b r2 =>
            if space2 a b then trim_start r2
            else
              match r2 with
              | String c r3 => if space3 a b c then trim_start r3 else s
              | EmptyString => s
              end
        | EmptyString => s
        end
      else s
  | EmptyString => EmptyString
  end.

(** The same from the end, on the reversed string. *)
Fixpoint drop_end (s : string) : string :=
  match s with
  | String c r =>
      if is_space c then drop_end r
      else if is_continuation c then
        match r with
        | String b r2 =>
            if space2 b c then drop_end r2
            else
              match r2 with
              | String a r3 => if space3 a b c then drop_end r3 else s
              | EmptyString => s
              end
        | EmptyString => s
        end
      else s
  | EmptyString => EmptyString
  end.

Definition trim_end (s : string) : string :=
  String.rev (drop_end (String.rev s)).

Definition trim (s : string) : string := trim_end (trim_start s).

(** Strings in a row, a row of white space, and a text that begins and
    ends with a visible ASCII character (its inside is free). *)
Definition join (l : list string) : string := foldr String.append "" l.

Definition spaces (l : list string) : Prop :=
  Forall (fun sp => In sp white_space) l.

Definition graphic (c : ascii) : bool :=
  let n := nat_of_ascii c in
  ((33 <=? n) && (n <=? 126))%nat.

Definition solid (s : string) : bool :=
  match s, String.rev s with
  | String a _, String b _ => graphic a && graphic b
  | _, _ => false
  end.

Definition digit_of (c : ascii) : option Z :=
  let n := nat_of_ascii c in
  if ((48 <=? n)%nat && (n <=? 57)%nat)%bool then Some (Z.of_nat (n - 48)) else None.

(** The longest prefix of decimal digits, read from the left into [acc];
    [seen] records whether a digit was met. *)
Fixpoint parse_digits (s : string) (seen : bool) (acc : Z) : option Z :=
  match s with
  | String c r =>
      match digit_of c with
      | Some d => parse_digits r true (acc * 10 + d)
      | None => if seen then Some acc else None
      end
  | EmptyString => if seen then Some acc else None
  end.

(** [parseInt(s, 10)]: leading white space is skipped, one sign is taken,
    then the longest run of decimal digits; no digit gives [NaN], and the
    integer read is rounded to a double. *)
Definition parseInt10 (s : string) : jsnum :=
  let body := trim_start s in
  let '(neg, digits) :=
    match body with
    | String "-" r => (true, r)
    | String "+" r => (false, r)
    | _ => (false, body)
    end in
  match parse_digits digits false 0 with
  | Some z => round_double (if neg then - z else z)
  | None => NaN
  end.

(** ** The world of one invocation *)

(** The result of a call that may throw, or of an awaited promise. *)
Inductive reply (A : Type) : Type :=
| Resolved (a : A)
| Rejected (e : thrown).
Arguments Resolved {A} a.
Arguments Rejected {A} e.

(** [GetCrawler]'s response, as far as [run] reads it:
    [response.Crawler?.State]. *)
Record CrawlerInfo : Type := { State : option string }.
Record GetCrawlerResponse : Type := { Crawler : option CrawlerInfo }.

(** [GetCrawlerMetrics]'s response, as far as [run] reads it. *)
Record CrawlerMetrics : Type := {
  TablesCreated : option Z;
  TablesUpdated : option Z;
  TablesDeleted : option Z
}.
Record GetCrawlerMetricsResponse : Type := {
  CrawlerMetricsList : option (list CrawlerMetrics)
}.

(** Everything outside [run]: the inputs the runner hands over (its INPUT_
    variables, keyed by input name), the Glue service and the clock.  The
    [n]-th status call and the [n]-th reading of the clock are answered by
    index. *)
Record World : Type := {
  inputs : gmap string string;
  startCrawler : string -> reply unit;
  getCrawler : nat -> string -> reply GetCrawlerResponse;
  getCrawlerMetrics : list string -> reply GetCrawlerMetricsResponse;
  dateNow : nat -> Z
}.

(** What an invocation does that can be seen from outside, in order. *)
Inductive event : Type :=
| Info (msg : string)
| Warning (msg : string)
| SetOutput (name value : string)
| SetFailed (msg : string)
| StartCrawlerCall (name : string)
| GetCrawlerCall (name : string)
| GetCrawlerMetricsCall (names : list string)
| Sleep (ms : Z).

(** The state threaded through [run]: the trace so far, and how many
    status calls and clock readings were made. *)
Record Machine : Type := {
  trace : list event;
  polls : nat;
  ticks : nat
}.

Definition initial : Machine := {| trace := []; polls := 0; ticks := 0 |}.

(** How a piece of [run] ends: normally, by a throw, or not yet (the
    polling loop is still going when the fuel is spent). *)
Inductive completion (A : Type) : Type :=
| Normal (a : A)
| Abrupt (e : thrown)
| Pending.
Arguments Normal {A} a.
Arguments Abrupt {A} e.
Arguments Pending {A}.

Definition Eff (A : Type) : Type := Machine -> completion A * Machine.

Definition ret {A} (a : A) : Eff A := fun m => (Normal a, m).

Definition bind {A B} (c : Eff A) (k : A -> Eff B) : Eff B :=
  fun m =>
    match c m with
    | (Normal a, m') => k a m'
    | (Abrupt e, m') => (Abrupt e, m')
    | (Pending, m') => (Pending, m')
    end.

Definition throw {A} (e : thrown) : Eff A := fun m => (Abrupt e, m).

Definition pending {A} : Eff A := fun m => (Pending, m).

(** [try { body } catch (e) { handler e }] *)
Definition try_catch {A} (body : Eff A) (handler : thrown -> Eff A) : Eff A :=
  fun m =>
    match body m with
    | (Abrupt e, m') => handler e m'
    | other => other
    end.

Declare Scope eff_scope.
Delimit Scope eff_scope with eff.
Notation "x <- c ;; k" := (bind c (fun x => k))
  (at level 100, c at next level, right associativity) : eff_scope.
Notation "c ;;; k" := (bind c (fun _ => k))
  (at level 100, right associativity) : eff_scope.
Open Scope eff_scope.

Definition emit (ev : event) : Eff unit :=
  fun m => (Normal tt, {| trace := trace m ++ [ev]; polls := polls m; ticks := ticks m |}).

Definition of_reply {A} (r : reply A) : Eff A :=
  match r with
  | Resolved a => ret a
  | Rejected e => throw e
  end.

(** ** The orchestration *)

Section Orchestration.

Variable w : World.

(** [core.getInput(name, { required })] of the runner toolkit: the value
    the runner holds for [name] (the empty string when it holds none); a
    required input that is empty throws; the value is returned trimmed. *)
Definition getInput (name : string) (required : bool) : Eff string :=
  let val := default "" (inputs w !! name) in
  if required && String.eqb val "" then
    throw (ErrorInstance ("Input required and not supplied: " +:+ name))
  else ret (trim val).

Definition info (msg : string) : Eff unit := emit (Info msg).
Definition warning (msg : string) : Eff unit := emit (Warning msg).
Definition setOutput (name value : string) : Eff unit := emit (SetOutput name value).
Definition setFailed (msg : string) : Eff unit := emit (SetFailed msg).

(** [await glue.send(new StartCrawlerCommand({ Name }))] *)
Definition send_StartCrawler (name : string) : Eff unit :=
  emit (StartCrawlerCall name) ;;; of_reply (startCrawler w name).

(** [await glue.send(new GetCrawlerCommand({ Name }))] *)
Definition send_GetCrawler (name : string) : Eff GetCrawlerResponse :=
  fun m =>
    of_reply (getCrawler w (polls m) name)
      {| trace := trace m ++ [GetCrawlerCall name];
         polls := S (polls m);
         ticks := ticks m |}.

(** [await glue.send(new GetCrawlerMetricsCommand({ CrawlerNameList }))] *)
Definition send_GetCrawlerMetrics (names : list string) : Eff GetCrawlerMetricsResponse :=
  emit (GetCrawlerMetricsCall names) ;;; of_reply (getCrawlerMetrics w names).

(** [Date.now()] *)
Definition Date_now : Eff Z :=
  fun m =>
    (Normal (dateNow w (ticks m)),
     {| trace := trace m; polls := polls m; ticks := S (ticks m) |}).

(** [await new Promise((resolve) => globalThis.setTimeout(resolve, ms))] *)
Definition sleep (ms : Z) : Eff unit := emit (Sleep ms).

(** [response.Crawler?.State] *)
Definition state_of (response : GetCrawlerResponse) : option string :=
  Crawler response ≫= State.

(** [state === 'READY'] *)
Definition is_ready (state : option string) : bool :=
  match state with
  | Some s => String.eqb s "READY"
  | None => false
  end.

(** The inner [try]/[catch] of the READY branch (lines 46 to 63). *)
Definition report_metrics (crawlerName : string) : Eff unit :=
  try_catch
    (metricsResponse <- send_GetCrawlerMetrics [crawlerName] ;;
     let metrics := CrawlerMetricsList metricsResponse ≫= head in
     setOutput "tables-created" (js_opt_num_or (metrics ≫= TablesCreated) "0") ;;;
     setOutput "tables-updated" (js_opt_num_or (metrics ≫= TablesUpdated) "0") ;;;
     setOutput "tables-deleted" (js_opt_num_or (metrics ≫= TablesDeleted) "0"))
    (fun _ =>
     warning "Could not retrieve crawler metrics" ;;;
     setOutput "tables-created" "0" ;;;
     setOutput "tables-updated" "0" ;;;
     setOutput "tables-deleted" "0").

Definition timeout_message (timeoutMinutes : jsnum) : string :=
  "Crawler did not complete within " +:+ js_num_to_string timeoutMinutes +:+ " minutes".

(** The [while (true)] loop (lines 32 to 75); one unit of fuel per
    iteration. *)
Fixpoint poll (fuel : nat) (crawlerName : string) (timeoutMinutes : jsnum)
    (startTime : Z) (timeoutMs : jsnum) : Eff unit :=
  match fuel with
  | O => pending
  | S fuel' =>
      response <- send_GetCrawler crawlerName ;;
      let state := state_of response in
      info ("Crawler state: " +:+ js_opt_to_string state) ;;;
      if is_ready state then
        setOutput "state" (js_opt_to_string state) ;;;
        report_metrics crawlerName ;;;
        info "Crawler completed successfully"
      else
        now <- Date_now ;;
        if js_gt (now - startTime) timeoutMs then
          throw (ErrorInstance (timeout_message timeoutMinutes))
        else
          sleep 10000 ;;;
          poll fuel' crawlerName timeoutMinutes startTime timeoutMs
  end.

(** The inputs as [run] reads them (lines 7 to 9): [crawlerName],
    [waitForCompletion] and [timeoutMinutes]. *)
Definition read_inputs : Eff (string * bool * jsnum) :=
  crawlerName <- getInput "crawler-name" true ;;
  wait <- getInput "wait-for-completion" false ;;
  let waitForCompletion := String.eqb wait "true" in
  minutes <- getInput "timeout-minutes" false ;;
  let timeoutMinutes := parseInt10 (js_or minutes "60") in
  ret (crawlerName, waitForCompletion, timeoutMinutes).

(** The rest of the [try] block (lines 13 to 79). *)
Definition orchestrate (fuel : nat) (crawlerName : string)
    (waitForCompletion : bool) (timeoutMinutes : jsnum) : Eff unit :=
  info ("Starting crawler: " +:+ crawlerName) ;;;
  send_StartCrawler crawlerName ;;;
  setOutput "success" "true" ;;;
  if waitForCompletion then
    info "Waiting for crawler to complete..." ;;;
    startTime <- Date_now ;;
    let timeoutMs := js_mul (js_mul timeoutMinutes 60) 1000 in
    poll fuel crawlerName timeoutMinutes startTime timeoutMs
  else
    info "Not waiting for crawler completion (wait-for-completion is false)" ;;;
    setOutput "state" "RUNNING".

(** The [try] block of [run] (lines 6 to 79). *)
Definition run_body (fuel : nat) : Eff unit :=
  config <- read_inputs ;;
  let '(crawlerName, waitForCompletion, timeoutMinutes) := config in
  orchestrate fuel crawlerName waitForCompletion timeoutMinutes.

(** The message handed to [core.setFailed] by the [catch] of [run]. *)
Definition failure_message (error : thrown) : string :=
  match error with
  | ErrorInstance message => message
  | OtherValue _ => "Unknown error occurred"
  end.

(** [run] (lines 4 to 88). *)
Definition run (fuel : nat) : Eff unit :=
  try_catch (run_body fuel)
    (fun error =>
     setFailed (failure_message error) ;;;
     setOutput "success" "false").

End Orchestration.

(** ** Reading a finished trace *)

(** The outputs of the step: [core.setOutput] writes in order, a later
    value for a name replaces the earlier one. *)
Definition record_output (outs : gmap string string) (ev : event) : gmap string string :=
  match ev with
  | SetOutput name value => <[name := value]> outs
  | _ => outs
  end.

Definition outputs_of (t : list event) : gmap string string :=
  foldl record_output ∅ t.

(** The process-level failure signal: the message of the last
    [core.setFailed], if any. *)
Definition record_failure (signal : option string) (ev : event) : option string :=
  match ev with
  | SetFailed msg => Some msg
  | _ => signal
  end.

Definition failure_of (t : list event) : option string :=
  foldl record_failure None t.

(** The remote calls in a trace, by operation. *)
Definition is_start_call (ev : event) : bool :=
  match ev with StartCrawlerCall _ => true | _ => false end.
Definition is_status_call (ev : event) : bool :=
  match ev with GetCrawlerCall _ => true | _ => false end.
Definition is_metrics_call (ev : event) : bool :=
  match ev with GetCrawlerMetricsCall _ => true | _ => false end.
Definition is_remote_call (ev : event) : bool :=
  is_start_call ev || is_status_call ev || is_metrics_call ev.

(** How many events of [t] satisfy [p]. *)
Fixpoint count (p : event -> bool) (t : list event) : nat :=
  match t with
  | [] => 0%nat
  | ev :: rest => ((if p ev then 1 else 0) + count p rest)%nat
  end.

(** The values [run] computes from the inputs (lines 7 to 9 and 30):
    what [getInput] returns for an input, whether the runner holds a value
    for it, and the three constants with the timeout in milliseconds. *)
Definition input_value (w : World) (name : string) : string :=
  trim (default "" (inputs w !! name)).

Definition supplied (w : World) (name : string) : Prop :=
  default "" (inputs w !! name) ≠ "".

Definition crawlerName (w : World) : string := input_value w "crawler-name".

Definition waitForCompletion (w : World) : bool :=
  String.eqb (input_value w "wait-for-completion") "true".

Definition timeoutMinutes (w : World) : jsnum :=
  parseInt10 (js_or (input_value w "timeout-minutes") "60").

Definition timeoutMs (w : World) : jsnum :=
  js_mul (js_mul (timeoutMinutes w) 60) 1000.

(** The [i]-th status reply, the time elapsed when iteration [i] checks it,
    and the outcome of the timeout test of line 69 there. *)
Definition status_at (w : World) (i : nat) : reply GetCrawlerResponse :=
  getCrawler w i (crawlerName w).

Definition elapsed_at (w : World) (i : nat) : Z :=
  dateNow w (S i) - dateNow w 0.

Definition timed_out_at (w : World) (i : nat) : bool :=
  js_gt (elapsed_at w i) (timeoutMs w).

(** The [i]-th status call resolves with a state other than READY. *)
Definition not_ready_at (w : World) (i : nat) : Prop :=
  exists r, status_at w i = Resolved r /\ is_ready (state_of r) = false.

(** The [i]-th status call resolves with the state READY. *)
Definition ready_at (w : World) (i : nat) : Prop :=
  exists r, status_at w i = Resolved r /\ is_ready (state_of r) = true.

(** Iteration [i] goes round the loop: not READY, no timeout. *)
Definition continues_at (w : World) (i : nat) : Prop :=
  not_ready_at w i /\ timed_out_at w i = false.

(** [s] occurs in [msg]. *)
Definition contains (s msg : string) : Prop :=
  exists before after, msg = before +:+ s +:+ after.

(** ** The action's metadata *)

(** Modelled from the spec: the action's metadata file ([action.yml]), which
    declares the inputs and their defaults, is not among the sources.  The
    defaults are those of the Inputs table of the spec, which the README's
    Optional Inputs table repeats: ["true"] for [wait-for-completion] and
    ["60"] for [timeout-minutes]. *)
Definition action_defaults : gmap string string :=
  {[ "wait-for-completion" := "true"; "timeout-minutes" := "60" ]}.

(** Modelled from the spec: the runner hands [run] the values given in the
    workflow's [with] block, and the declared default for an input the
    block does not name. *)
Definition runner_inputs (given : gmap string string) : gmap string string :=
  given ∪ action_defaults.

(** ** Describing a run: traces, exits and what they leave behind *)

(** The trace up to and including the start call. *)
Definition start_trace (w : World) : list event :=
  [Info ("Starting crawler: " +:+ crawlerName w); StartCrawlerCall (crawlerName w)].

(** The machine on entry to the polling loop. *)
Definition loop_entry (w : World) : Machine :=
  {| trace := start_trace w ++
              [SetOutput "success" "true"; Info "Waiting for crawler to complete..."];
     polls := 0;
     ticks := 1 |}.

(** What the READY branch adds to the trace for the metrics (lines 46 to
    63), depending on the reply to the metrics call. *)
Definition metrics_trace (w : World) (name : string) : list event :=
  GetCrawlerMetricsCall [name] ::
  match getCrawlerMetrics w [name] with
  | Resolved metricsResponse =>
      let metrics := CrawlerMetricsList metricsResponse ≫= head in
      [SetOutput "tables-created" (js_opt_num_or (metrics ≫= TablesCreated) "0");
       SetOutput "tables-updated" (js_opt_num_or (metrics ≫= TablesUpdated) "0");
       SetOutput "tables-deleted" (js_opt_num_or (metrics ≫= TablesDeleted) "0")]
  | Rejected _ =>
      [Warning "Could not retrieve crawler metrics";
       SetOutput "tables-created" "0";
       SetOutput "tables-updated" "0";
       SetOutput "tables-deleted" "0"]
  end.

(** [m] after the events [evs], [dp] status calls and [dt] clock readings. *)
Definition extend (m : Machine) (evs : list event) (dp dt : nat) : Machine :=
  {| trace := trace m ++ evs; polls := (polls m + dp)%nat; ticks := (ticks m + dt)%nat |}.

(** How the loop stands after some iterations: still going round (with the
    index of the next status call), or left at iteration [k] by one of its
    three exits. *)
Inductive loop_exit : Type :=
| StillPolling (next : nat)
| SawReady (k : nat)
| StatusFailed (k : nat) (e : thrown)
| TimedOut (k : nat).

(** The exit reached within [fuel] iterations from iteration [i] on. *)
Fixpoint loop_exit_from (w : World) (fuel i : nat) : loop_exit :=
  match fuel with
  | O => StillPolling i
  | S fuel' =>
      match status_at w i with
      | Rejected e => StatusFailed i e
      | Resolved r =>
          if is_ready (state_of r) then SawReady i
          else if timed_out_at w i then TimedOut i
          else loop_exit_from w fuel' (S i)
      end
  end.

(** The events of those iterations. *)
Fixpoint loop_trace_from (w : World) (fuel i : nat) : list event :=
  match fuel with
  | O => []
  | S fuel' =>
      match status_at w i with
      | Rejected e => [GetCrawlerCall (crawlerName w)]
      | Resolved r =>
          if is_ready (state_of r) then
            [GetCrawlerCall (crawlerName w); Info "Crawler state: READY";
             SetOutput "state" "READY"]
            ++ metrics_trace w (crawlerName w) ++ [Info "Crawler completed successfully"]
          else if timed_out_at w i then
            [GetCrawlerCall (crawlerName w);
             Info ("Crawler state: " +:+ js_opt_to_string (state_of r))]
          else
            [GetCrawlerCall (crawlerName w);
             Info ("Crawler state: " +:+ js_opt_to_string (state_of r));
             Sleep 10000]
            ++ loop_trace_from w fuel' (S i)
      end
  end.

(** How the loop completes at an exit. *)
Definition exit_completion (w : World) (x : loop_exit) : completion unit :=
  match x with
  | StillPolling _ => Pending
  | SawReady _ => Normal tt
  | StatusFailed _ e => Abrupt e
  | TimedOut _ => Abrupt (ErrorInstance (timeout_message (timeoutMinutes w)))
  end.

(** The three metric outputs of the READY branch: created, updated,
    deleted. *)
Definition reported_metrics (w : World) : string * string * string :=
  match getCrawlerMetrics w [crawlerName w] with
  | Resolved metricsResponse =>
      let metrics := CrawlerMetricsList metricsResponse ≫= head in
      (js_opt_num_or (metrics ≫= TablesCreated) "0",
       js_opt_num_or (metrics ≫= TablesUpdated) "0",
       js_opt_num_or (metrics ≫= TablesDeleted) "0")
  | Rejected _ => ("0", "0", "0")
  end.

(** The outputs after the READY branch, from the outputs before it. *)
Definition ready_outputs (w : World) (outs : gmap string string) : gmap string string :=
  let '(created, updated, deleted) := reported_metrics w in
  <["tables-deleted" := deleted]>
    (<["tables-updated" := updated]>
       (<["tables-created" := created]>
          (<["state" := "READY"]> outs))).

(** The number of status calls made from iteration [i] up to an exit. *)
Definition status_calls (x : loop_exit) (i : nat) : nat :=
  match x with
  | StillPolling n => (n - i)%nat
  | SawReady k | StatusFailed k _ | TimedOut k => (S k - i)%nat
  end.

(** The number of metrics calls made up to an exit. *)
Definition metrics_calls (x : loop_exit) : nat :=
  match x with
  | SawReady _ => 1%nat
  | _ => 0%nat
  end.

(** What the [catch] of [run] adds to the trace. *)
Definition failure_events (error : thrown) : list event :=
  [SetFailed (failure_message error); SetOutput "success" "false"].

(** What [run] has done, when waiting, by the exit of the loop: the events
    of its [catch], the outputs, the failure signal, and how it ends. *)
Definition exit_events (w : World) (x : loop_exit) : list event :=
  match exit_completion w x with
  | Abrupt error => failure_events error
  | _ => []
  end.

Definition exit_outputs (w : World) (x : loop_exit) : gmap string string :=
  match x with
  | StillPolling _ => {[ "success" := "true" ]}
  | SawReady _ => ready_outputs w {[ "success" := "true" ]}
  | StatusFailed _ _ | TimedOut _ => {[ "success" := "false" ]}
  end.

Definition exit_failure (w : World) (x : loop_exit) : option string :=
  match exit_completion w x with
  | Abrupt error => Some (failure_message error)
  | _ => None
  end.

Definition exit_outcome (x : loop_exit) : completion unit :=
  match x with
  | StillPolling _ => Pending
  | _ => Normal tt
  end.

(** The four ways in which the [try] block of [run] throws. *)
Inductive fatal_step (w : World) (error : thrown) : Prop :=
| ConfigurationError :
    ~ supplied w "crawler-name" ->
    error = ErrorInstance "Input required and not supplied: crawler-name" ->
    fatal_step w error
| StartRejection :
    supplied w "crawler-name" ->
    startCrawler w (crawlerName w) = Rejected error ->
    fatal_step w error
| StatusRejection (k : nat) :
    supplied w "crawler-name" ->
    startCrawler w (crawlerName w) = Resolved tt ->
    waitForCompletion w = true ->
    (forall j, (j < k)%nat -> continues_at w j) ->
    status_at w k = Rejected error ->
    fatal_step w error
| Timeout (k : nat) :
    supplied w "crawler-name" ->
    startCrawler w (crawlerName w) = Resolved tt ->
    waitForCompletion w = true ->
    (forall j, (j < k)%nat -> continues_at w j) ->
    not_ready_at w k ->
    timed_out_at w k = true ->
    error = ErrorInstance (timeout_message (timeoutMinutes w)) ->
    fatal_step w error.

(** Two worlds that differ at most in the status replies after the [k]-th. *)
Definition same_until (k : nat) (w w' : World) : Prop :=
  inputs w' = inputs w /\
  (forall name, startCrawler w' name = startCrawler w name) /\
  (forall names, getCrawlerMetrics w' names = getCrawlerMetrics w names) /\
  (forall n, dateNow w' n = dateNow w n) /\
  (forall i name, (i <= k)%nat -> getCrawler w' i name = getCrawler w i name).

(** ** Two claims of the spec, as worded *)

(** C1 as the spec words it: without waiting, the step ends after the
    start call with success, the synthetic running state (RUNNING in the
    code) and the three metric outputs equal to zero, and without a status
    or metrics call. *)
Definition no_wait_reports_zero_metrics : Prop :=
  forall (w : World) (fuel : nat),
    supplied w "crawler-name" ->
    startCrawler w (crawlerName w) = Resolved tt ->
    waitForCompletion w = false ->
    let t := trace (snd (run w fuel initial)) in
    fst (run w fuel initial) = Normal tt /\
    outputs_of t !! "success" = Some "true" /\
    outputs_of t !! "state" = Some "RUNNING" /\
    outputs_of t !! "tables-created" = Some "0" /\
    outputs_of t !! "tables-updated" = Some "0" /\
    outputs_of t !! "tables-deleted" = Some "0" /\
    count is_status_call t = 0%nat /\
    count is_metrics_call t = 0%nat.

(** C6 as the spec words it: every invocation issues exactly one start
    call, and the first READY reply ends the polling. *)
Definition every_invocation_starts_once : Prop :=
  forall (w : World) (fuel : nat),
    let t := trace (snd (run w fuel initial)) in
    count is_start_call t = 1%nat /\
    forall k, ready_at w k -> (count is_status_call t <= S k)%nat.

(** ** Example worlds *)

(** The example worlds share one crawler and a clock that advances ten
    seconds per reading. *)
Definition ok_state (s : string) : reply GetCrawlerResponse :=
  Resolved {| Crawler := Some {| State := Some s |} |}.

Definition ten_second_clock (n : nat) : Z := 1000 + Z.of_nat n * 10000.

Definition some_metrics : reply GetCrawlerMetricsResponse :=
  Resolved {| CrawlerMetricsList :=
    Some [ {| TablesCreated := Some 3; TablesUpdated := None; TablesDeleted := Some 0 |} ] |}.

(** A step that asks not to wait, and whose start call succeeds. *)
Definition world_no_wait : World := {|
  inputs := {[ "crawler-name" := "events-crawler"; "wait-for-completion" := "false" ]};
  startCrawler := fun _ => Resolved tt;
  getCrawler := fun _ _ => ok_state "RUNNING";
  getCrawlerMetrics := fun _ => some_metrics;
  dateNow := ten_second_clock
|}.

(** A step without the crawler-name input. *)
Definition world_no_name : World := {|
  inputs := {[ "wait-for-completion" := "true"; "timeout-minutes" := "5" ]};
  startCrawler := fun _ => Resolved tt;
  getCrawler := fun _ _ => ok_state "READY";
  getCrawlerMetrics := fun _ => some_metrics;
  dateNow := ten_second_clock
|}.

(** The crawler is READY when first asked. *)
Definition world_ready_at_once : World := {|
  inputs := {[ "crawler-name" := "events-crawler"; "wait-for-completion" := "true";
               "timeout-minutes" := "30" ]};
  startCrawler := fun _ => Resolved tt;
  getCrawler := fun _ _ => ok_state "READY";
  getCrawlerMetrics := fun _ => some_metrics;
  dateNow := ten_second_clock
|}.

(** READY on the third poll, then a metrics call that is rejected with a
    value that is not an [Error]. *)
Definition world_metrics_fail : World := {|
  inputs := {[ "crawler-name" := "events-crawler"; "wait-for-completion" := "true";
               "timeout-minutes" := "30" ]};
  startCrawler := fun _ => Resolved tt;
  getCrawler := fun n _ => if (n <? 2)%nat then ok_state "RUNNING" else ok_state "READY";
  getCrawlerMetrics := fun _ => Rejected (OtherValue "throttled");
  dateNow := ten_second_clock
|}.

(** A crawler that never gets READY, polled with a bound of one minute. *)
Definition world_never_ready : World := {|
  inputs := {[ "crawler-name" := "events-crawler"; "wait-for-completion" := "true";
               "timeout-minutes" := "1" ]};
  startCrawler := fun _ => Resolved tt;
  getCrawler := fun _ _ => ok_state "RUNNING";
  getCrawlerMetrics := fun _ => some_metrics;
  dateNow := ten_second_clock
|}.

(** The status call is rejected on the second poll with an [Error]. *)
Definition world_status_rejected : World := {|
  inputs := {[ "crawler-name" := "events-crawler"; "wait-for-completion" := "true";
               "timeout-minutes" := "30" ]};
  startCrawler := fun _ => Resolved tt;
  getCrawler := fun n _ =>
    if (n <? 1)%nat then ok_state "RUNNING"
    else Rejected (ErrorInstance "Rate exceeded");
  getCrawlerMetrics := fun _ => some_metrics;
  dateNow := ten_second_clock
|}.

(** The start call is rejected with a value that is not an [Error]. *)
Definition world_start_throws_string : World := {|
  inputs := {[ "crawler-name" := "events-crawler" ]};
  startCrawler := fun _ => Rejected (OtherValue "socket hang up");
  getCrawler := fun _ _ => ok_state "READY";
  getCrawlerMetrics := fun _ => some_metrics;
  dateNow := ten_second_clock
|}.

(** A bound that is not a number, and a crawler that never gets READY. *)
Definition world_bad_timeout : World := {|
  inputs := {[ "crawler-name" := "events-crawler"; "wait-for-completion" := "true";
               "timeout-minutes" := "soon" ]};
  startCrawler := fun _ => Resolved tt;
  getCrawler := fun _ _ => ok_state "RUNNING";
  getCrawlerMetrics := fun _ => some_metrics;
  dateNow := ten_second_clock
|}.

(** READY on the second poll; what comes later differs between the two. *)
Definition world_ready_second : World := {|
  inputs := {[ "crawler-name" := "events-crawler"; "wait-for-completion" := "true";
               "timeout-minutes" := "30" ]};
  startCrawler := fun _ => Resolved tt;
  getCrawler := fun n _ => if (n <? 1)%nat then ok_state "RUNNING" else ok_state "READY";
  getCrawlerMetrics := fun _ => some_metrics;
  dateNow := ten_second_clock
|}.

Definition world_ready_second_then_fails : World := {|
  inputs := inputs world_ready_second;
  startCrawler := startCrawler world_ready_second;
  getCrawler := fun n name =>
    if (n <? 2)%nat then getCrawler world_ready_second n name
    else Rejected (ErrorInstance "Crawler not found");
  getCrawlerMetrics := getCrawlerMetrics world_ready_second;
  dateNow := dateNow world_ready_second
|}.

(** A workflow step that names only the crawler. *)
Definition world_defaults : World := {|
  inputs := runner_inputs {[ "crawler-name" := "events-crawler" ]};
  startCrawler := fun _ => Resolved tt;
  getCrawler := fun _ _ => ok_state "READY";
  getCrawlerMetrics := fun _ => some_metrics;
  dateNow := ten_second_clock
|}.

(** ** Further observations on traces and worlds *)

(** The suspensions and the warnings of a trace. *)
Definition is_sleep (ev : event) : bool :=
  match ev with Sleep _ => true | _ => false end.
Definition is_warning (ev : event) : bool :=
  match ev with Warning _ => true | _ => false end.

(** A suspension lasts ten seconds. *)
Definition ten_second_sleep (ev : event) : Prop :=
  match ev with
  | Sleep ms => ms = 10000
  | _ => True
  end.

(** A remote call is about the crawler [crawler], and no other. *)
Definition carries (crawler : string) (ev : event) : Prop :=
  match ev with
  | StartCrawlerCall name | GetCrawlerCall name => name = crawler
  | GetCrawlerMetricsCall names => names = [crawler]
  | _ => True
  end.

(** The number of suspensions from iteration [i] up to an exit. *)
Definition sleeps (x : loop_exit) (i : nat) : nat :=
  match x with
  | StillPolling n => (n - i)%nat
  | SawReady k | StatusFailed k _ | TimedOut k => (k - i)%nat
  end.

(** The number of clock readings on leaving the loop by an exit, the one
    of line 29 included. *)
Definition clock_readings (x : loop_exit) : nat :=
  match x with
  | StillPolling n => S n
  | SawReady k | StatusFailed k _ => S k
  | TimedOut k => S (S k)
  end.

(** A metric output: [x?.toString() || '0']. *)
Definition shown_count (x : option Z) : string :=
  match x with
  | Some z => pretty z
  | None => "0"
  end.

(** [w] with the input [key] set to [value]. *)
Definition with_input (w : World) (key value : string) : World := {|
  inputs := <[key := value]> (inputs w);
  startCrawler := startCrawler w;
  getCrawler := getCrawler w;
  getCrawlerMetrics := getCrawlerMetrics w;
  dateNow := dateNow w
|}.

(** Two worlds that differ at most in the status replies after the [k]-th
    and in the clock readings after the [k]-th. *)
Definition same_up_to (k : nat) (w w' : World) : Prop :=
  inputs w' = inputs w /\
  (forall name, startCrawler w' name = startCrawler w name) /\
  (forall names, getCrawlerMetrics w' names = getCrawlerMetrics w names) /\
  (forall n, (n <= k)%nat -> dateNow w' n = dateNow w n) /\
  (forall i name, (i <= k)%nat -> getCrawler w' i name = getCrawler w i name).

(** Two worlds with the same three inputs that [run] reads and the same
    service and clock. *)
Definition same_for_run (w w' : World) : Prop :=
  inputs w' !! "crawler-name" = inputs w !! "crawler-name" /\
  inputs w' !! "wait-for-completion" = inputs w !! "wait-for-completion" /\
  inputs w' !! "timeout-minutes" = inputs w !! "timeout-minutes" /\
  (forall name, startCrawler w' name = startCrawler w name) /\
  (forall names, getCrawlerMetrics w' names = getCrawlerMetrics w names) /\
  (forall n, dateNow w' n = dateNow w n) /\
  (forall i name, getCrawler w' i name = getCrawler w i name).

(** READY on the second poll, with metrics: two tables created, none
    updated (the field is absent), one deleted; a second entry follows. *)
Definition world_with_metrics : World := {|
  inputs := {[ "crawler-name" := "events-crawler"; "wait-for-completion" := "true";
               "timeout-minutes" := "30" ]};
  startCrawler := fun _ => Resolved tt;
  getCrawler := fun n _ => if (n <? 1)%nat then ok_state "RUNNING" else ok_state "READY";
  getCrawlerMetrics := fun _ =>
    Resolved {| CrawlerMetricsList := Some
      [ {| TablesCreated := Some 2; TablesUpdated := None; TablesDeleted := Some 1 |};
        {| TablesCreated := Some 9; TablesUpdated := Some 9; TablesDeleted := Some 9 |} ] |};
  dateNow := ten_second_clock
|}.

(** READY on the first poll, and a metrics reply without any entry. *)
Definition world_empty_metrics : World := {|
  inputs := {[ "crawler-name" := "events-crawler"; "wait-for-completion" := "true" ]};
  startCrawler := fun _ => Resolved tt;
  getCrawler := fun _ _ => ok_state "READY";
  getCrawlerMetrics := fun _ => Resolved {| CrawlerMetricsList := Some [] |};
  dateNow := ten_second_clock
|}.

(** The start call is rejected with an [Error]. *)
Definition world_start_rejected : World := {|
  inputs := {[ "crawler-name" := "events-crawler"; "wait-for-completion" := "true" ]};
  startCrawler := fun _ => Rejected (ErrorInstance "Crawler with name events-crawler has already started");
  getCrawler := fun _ _ => ok_state "READY";
  getCrawlerMetrics := fun _ => some_metrics;
  dateNow := ten_second_clock
|}.

(** A bound of one minute, a crawler that is READY on the ninth poll, two
    minutes after the start. *)
Definition world_late_ready : World := {|
  inputs := {[ "crawler-name" := "events-crawler"; "wait-for-completion" := "true";
               "timeout-minutes" := "1" ]};
  startCrawler := fun _ => Resolved tt;
  getCrawler := fun n _ => if (n <? 8)%nat then ok_state "RUNNING" else ok_state "READY";
  getCrawlerMetrics := fun _ => some_metrics;
  dateNow := fun n => if (n <? 9)%nat then 1000 + Z.of_nat n * 1000 else 121000
|}.

(** The same, with a clock that jumps a day ahead from the ninth reading
    on and a service that fails after the ninth poll. *)
Definition world_late_ready_other : World := {|
  inputs := inputs world_late_ready;
  startCrawler := startCrawler world_late_ready;
  getCrawler := fun n name =>
    if (n <? 9)%nat then getCrawler world_late_ready n name
    else Rejected (ErrorInstance "Crawler not found");
  getCrawlerMetrics := getCrawlerMetrics world_late_ready;
  dateNow := fun n => if (n <? 9)%nat then dateNow world_late_ready n else 86400000
|}.

(** A step whose bound is given with a fraction: a minute and a half. *)
Definition world_fraction : World := {|
  inputs := {[ "crawler-name" := "events-crawler"; "wait-for-completion" := "true";
               "timeout-minutes" := "1.5" ]};
  startCrawler := fun _ => Resolved tt;
  getCrawler := fun _ _ => ok_state "RUNNING";
  getCrawlerMetrics := fun _ => some_metrics;
  dateNow := ten_second_clock
|}.

(** The crawler-name input is wrapped in white space: a no-break space
    before the name, a space and a tab after it. *)
Definition world_wrapped_name : World := {|
  inputs := {[ "crawler-name" :=
                 join [bytes [194; 160]%nat] +:+ "events-crawler" +:+
                 join [bytes [32]%nat; bytes [9]%nat];
               "wait-for-completion" := "true" ]};
  startCrawler := fun _ => Resolved tt;
  getCrawler := fun _ _ => ok_state "READY";
  getCrawlerMetrics := fun _ => some_metrics;
  dateNow := ten_second_clock
|}.

(** * Properties *)

(** Unfolding the primitive effects, and comparing two machines. *)
Ltac eff_unfold :=
  cbv beta iota zeta delta
    [bind ret throw pending emit info warning setOutput setFailed sleep
     of_reply try_catch send_StartCrawler send_GetCrawlerMetrics Date_now
     trace polls ticks].

Ltac machine_equal :=
  f_equal; simpl; rewrite <- ?app_assoc; simpl; try reflexivity; try lia.

(** ** Numbers beyond the safe integers *)

(** 2^53 + 1 is no double: it is read as 2^53, and 2^53 + 3 as 2^53 + 4
    (ties go to the even significand). *)
Example parseInt10_rounds_to_even :
  parseInt10 "9007199254740993" = Num 9007199254740992 /\
  parseInt10 "9007199254740995" = Num 9007199254740996 /\
  parseInt10 "-9007199254740993" = Num (-9007199254740992).
Proof. vm_compute. repeat split. Qed.

(** No-break spaces and byte order marks before the numeral are skipped. *)
Example parseInt10_skips_unicode_space :
  parseInt10 (bytes [194; 160; 239; 187; 191; 32]%nat +:+ "15m") = Num 15.
Proof. vm_compute. reflexivity. Qed.

(** Beyond 2^53 the text of a number is that of its shortest digits, in
    exponent form from 10^21 on. *)
Example js_num_to_string_beyond_safe :
  js_num_to_string (Num (2 ^ 60)) = "1152921504606847000" /\
  js_num_to_string (round_double 123456789012345678901) = "123456789012345680000" /\
  js_num_to_string (round_double (10 ^ 21)) = "1e+21" /\
  js_num_to_string (round_double (- 10 ^ 21)) = "-1e+21" /\
  js_num_to_string (round_double 1234567890123456789012345) = "1.2345678901234568e+24".
Proof. vm_compute. repeat split. Qed.

(** ** Reading the inputs *)

Lemma supplied_eqb (w : World) (name : string) :
  supplied w name -> String.eqb (default "" (inputs w !! name)) "" = false.
Proof.
  unfold supplied. intros Hne. apply String.eqb_neq. exact Hne.
Qed.

Lemma missing_eqb (w : World) (name : string) :
  ~ supplied w name -> String.eqb (default "" (inputs w !! name)) "" = true.
Proof.
  unfold supplied. intros Hmiss. apply String.eqb_eq.
  destruct (String.eqb_spec (default "" (inputs w !! name)) "") as [He | Hn]; [exact He | ].
  exfalso. apply Hmiss. exact Hn.
Qed.

Lemma missing_cases (w : World) (name : string) :
  inputs w !! name = None \/ inputs w !! name = Some "" -> ~ supplied w name.
Proof.
  unfold supplied. intros [H | H]; rewrite H; simpl; intros Hne; apply Hne; reflexivity.
Qed.

Lemma read_inputs_supplied (w : World) (m : Machine) :
  supplied w "crawler-name" ->
  read_inputs w m = (Normal (crawlerName w, waitForCompletion w, timeoutMinutes w), m).
Proof.
  intros Hs. unfold read_inputs, bind, getInput.
  rewrite (supplied_eqb _ _ Hs). reflexivity.
Qed.

Lemma read_inputs_missing (w : World) (m : Machine) :
  ~ supplied w "crawler-name" ->
  read_inputs w m =
    (Abrupt (ErrorInstance "Input required and not supplied: crawler-name"), m).
Proof.
  intros Hs. unfold read_inputs, bind, getInput.
  rewrite (missing_eqb _ _ Hs). reflexivity.
Qed.

(** ** The steps before the loop *)

Lemma run_body_missing (w : World) (fuel : nat) :
  ~ supplied w "crawler-name" ->
  run_body w fuel initial =
    (Abrupt (ErrorInstance "Input required and not supplied: crawler-name"), initial).
Proof.
  intros Hs. unfold run_body, bind. rewrite (read_inputs_missing _ _ Hs). reflexivity.
Qed.

Lemma run_body_start_rejected (w : World) (fuel : nat) (e : thrown) :
  supplied w "crawler-name" ->
  startCrawler w (crawlerName w) = Rejected e ->
  run_body w fuel initial =
    (Abrupt e, {| trace := start_trace w; polls := 0; ticks := 0 |}).
Proof.
  intros Hs Hr. unfold run_body, bind. rewrite (read_inputs_supplied _ _ Hs).
  unfold orchestrate, bind, info, send_StartCrawler, bind, emit. simpl.
  rewrite Hr. reflexivity.
Qed.

Lemma run_body_no_wait (w : World) (fuel : nat) :
  supplied w "crawler-name" ->
  startCrawler w (crawlerName w) = Resolved tt ->
  waitForCompletion w = false ->
  run_body w fuel initial =
    (Normal tt,
     {| trace := start_trace w ++
                 [SetOutput "success" "true";
                  Info "Not waiting for crawler completion (wait-for-completion is false)";
                  SetOutput "state" "RUNNING"];
        polls := 0;
        ticks := 0 |}).
Proof.
  intros Hs Hr Hw. unfold run_body, bind. rewrite (read_inputs_supplied _ _ Hs).
  unfold orchestrate, bind, info, send_StartCrawler, bind, emit. simpl.
  rewrite Hr, Hw. reflexivity.
Qed.

Lemma run_body_wait (w : World) (fuel : nat) :
  supplied w "crawler-name" ->
  startCrawler w (crawlerName w) = Resolved tt ->
  waitForCompletion w = true ->
  run_body w fuel initial =
    poll w fuel (crawlerName w) (timeoutMinutes w) (dateNow w 0) (timeoutMs w) (loop_entry w).
Proof.
  intros Hs Hr Hw. unfold run_body, bind. rewrite (read_inputs_supplied _ _ Hs).
  unfold orchestrate, bind, info, send_StartCrawler, bind, emit. simpl.
  rewrite Hr, Hw. reflexivity.
Qed.

(** ** One iteration of the loop *)

Lemma report_metrics_run (w : World) (name : string) (m : Machine) :
  report_metrics w name m = (Normal tt, extend m (metrics_trace w name) 0 0).
Proof.
  unfold report_metrics, metrics_trace, extend. eff_unfold.
  destruct (getCrawlerMetrics w [name]) as [resp | e]; eff_unfold;
    (f_equal; machine_equal).
Qed.

Lemma is_ready_READY (state : option string) :
  is_ready state = true -> js_opt_to_string state = "READY".
Proof.
  destruct state as [s | ]; simpl; [ | discriminate].
  intros H. apply String.eqb_eq in H. exact H.
Qed.

Section Iteration.

Variables (w : World) (name : string) (tm : jsnum) (st : Z) (tms : jsnum).

Lemma poll_rejected (f : nat) (m : Machine) (e : thrown) :
  getCrawler w (polls m) name = Rejected e ->
  poll w (S f) name tm st tms m = (Abrupt e, extend m [GetCrawlerCall name] 1 0).
Proof.
  intros Hr. simpl. unfold bind, send_GetCrawler. rewrite Hr. simpl.
  f_equal. unfold extend. machine_equal.
Qed.

Lemma poll_ready (f : nat) (m : Machine) (r : GetCrawlerResponse) :
  getCrawler w (polls m) name = Resolved r ->
  is_ready (state_of r) = true ->
  poll w (S f) name tm st tms m =
    (Normal tt,
     extend m ([GetCrawlerCall name; Info "Crawler state: READY"; SetOutput "state" "READY"]
               ++ metrics_trace w name ++ [Info "Crawler completed successfully"]) 1 0).
Proof.
  intros Hr Hready. simpl. unfold bind at 1. unfold send_GetCrawler. rewrite Hr. simpl.
  unfold bind at 1. unfold info at 1. unfold emit at 1. simpl.
  rewrite Hready, (is_ready_READY _ Hready).
  unfold bind at 1. unfold setOutput at 1. unfold emit at 1. simpl.
  unfold bind. rewrite report_metrics_run. unfold info, emit, extend. simpl.
  f_equal. machine_equal.
Qed.

Lemma poll_timed_out (f : nat) (m : Machine) (r : GetCrawlerResponse) :
  getCrawler w (polls m) name = Resolved r ->
  is_ready (state_of r) = false ->
  js_gt (dateNow w (ticks m) - st) tms = true ->
  poll w (S f) name tm st tms m =
    (Abrupt (ErrorInstance (timeout_message tm)),
     extend m [GetCrawlerCall name;
               Info ("Crawler state: " +:+ js_opt_to_string (state_of r))] 1 1).
Proof.
  intros Hr Hready Hgt. simpl. unfold bind at 1. unfold send_GetCrawler. rewrite Hr. simpl.
  unfold bind at 1. unfold info at 1. unfold emit at 1. simpl.
  rewrite Hready. unfold bind, Date_now. simpl. rewrite Hgt. unfold throw, extend.
  f_equal. machine_equal.
Qed.

Lemma poll_round (f : nat) (m : Machine) (r : GetCrawlerResponse) :
  getCrawler w (polls m) name = Resolved r ->
  is_ready (state_of r) = false ->
  js_gt (dateNow w (ticks m) - st) tms = false ->
  poll w (S f) name tm st tms m =
    poll w f name tm st tms
      (extend m [GetCrawlerCall name;
                 Info ("Crawler state: " +:+ js_opt_to_string (state_of r));
                 Sleep 10000] 1 1).
Proof.
  intros Hr Hready Hgt. simpl. unfold bind at 1. unfold send_GetCrawler. rewrite Hr. simpl.
  unfold bind at 1. unfold info at 1. unfold emit at 1. simpl.
  rewrite Hready. unfold bind at 1. unfold Date_now at 1. simpl. rewrite Hgt.
  unfold bind at 1. unfold sleep, emit. simpl. unfold extend.
  f_equal. machine_equal.
Qed.

End Iteration.

(** ** The loop, iteration by iteration *)

(** The loop of [run], started at iteration [i], ends as [loop_exit_from]
    says and adds the events of [loop_trace_from]. *)
Lemma poll_from (w : World) (fuel : nat) :
  forall (i : nat) (m : Machine),
    polls m = i -> ticks m = S i ->
    let result :=
      poll w fuel (crawlerName w) (timeoutMinutes w) (dateNow w 0) (timeoutMs w) m in
    fst result = exit_completion w (loop_exit_from w fuel i) /\
    trace (snd result) = trace m ++ loop_trace_from w fuel i.
Proof.
  induction fuel as [ | fuel IH]; intros i m Hp Ht; cbv zeta.
  - simpl. rewrite app_nil_r. split; reflexivity.
  - cbn [loop_exit_from loop_trace_from]. unfold status_at.
    destruct (getCrawler w i (crawlerName w)) as [r | e] eqn:Hreply.
    + destruct (is_ready (state_of r)) eqn:Hready.
      * rewrite (poll_ready _ _ _ _ _ _ m r); [ | rewrite Hp; exact Hreply | exact Hready].
        split; reflexivity.
      * destruct (timed_out_at w i) eqn:Hout.
        -- rewrite (poll_timed_out _ _ _ _ _ _ m r);
             [ | rewrite Hp; exact Hreply | exact Hready | rewrite Ht; exact Hout].
           split; reflexivity.
        -- rewrite (poll_round _ _ _ _ _ _ m r);
             [ | rewrite Hp; exact Hreply | exact Hready | rewrite Ht; exact Hout].
           destruct (IH (S i) (extend m
                      [GetCrawlerCall (crawlerName w);
                       Info ("Crawler state: " +:+ js_opt_to_string (state_of r));
                       Sleep 10000] 1 1)) as [Hc Htr].
           { simpl. lia. }
           { simpl. lia. }
           split; [exact Hc | ]. rewrite Htr. simpl. rewrite <- app_assoc. reflexivity.
    + rewrite (poll_rejected _ _ _ _ _ _ m e); [ | rewrite Hp; exact Hreply].
      split; reflexivity.
Qed.

(** *** Which exit is taken *)

Lemma continues_at_inv (w : World) (i : nat) :
  continues_at w i ->
  exists r, status_at w i = Resolved r /\ is_ready (state_of r) = false /\
            timed_out_at w i = false.
Proof.
  intros [[r [Hr Hn]] Ht]. exists r. repeat split; assumption.
Qed.

(** What the exit reached says about the world. *)
Lemma loop_exit_sound (w : World) (fuel : nat) :
  forall i : nat,
    match loop_exit_from w fuel i with
    | StillPolling n =>
        n = (i + fuel)%nat /\ (forall j, (i <= j < n)%nat -> continues_at w j)
    | SawReady k =>
        (i <= k < i + fuel)%nat /\ ready_at w k /\
        (forall j, (i <= j < k)%nat -> continues_at w j)
    | StatusFailed k e =>
        (i <= k < i + fuel)%nat /\ status_at w k = Rejected e /\
        (forall j, (i <= j < k)%nat -> continues_at w j)
    | TimedOut k =>
        (i <= k < i + fuel)%nat /\ not_ready_at w k /\ timed_out_at w k = true /\
        (forall j, (i <= j < k)%nat -> continues_at w j)
    end.
Proof.
  induction fuel as [ | fuel IH]; intros i; cbn [loop_exit_from].
  - split; [lia | intros j Hj; lia].
  - destruct (status_at w i) as [r | e] eqn:Hreply.
    + destruct (is_ready (state_of r)) eqn:Hready.
      * split; [lia | ]. split; [exists r; split; assumption | intros j Hj; lia].
      * destruct (timed_out_at w i) eqn:Hout.
        -- split; [lia | ]. split; [exists r; split; assumption | ].
           split; [exact Hout | intros j Hj; lia].
        -- assert (Hi : continues_at w i).
           { split; [exists r; split; assumption | exact Hout]. }
           assert (Hext : forall k (P : nat -> Prop),
                     (forall j, (S i <= j < k)%nat -> P j) -> P i ->
                     forall j, (i <= j < k)%nat -> P j).
           { intros k P Hall Hhere j Hj.
             destruct (Nat.eq_dec j i) as [-> | Hne]; [exact Hhere | apply Hall; lia]. }
           specialize (IH (S i)).
           destruct (loop_exit_from w fuel (S i)) as [n | k | k e | k].
           ++ destruct IH as [Hn Hall]. split; [lia | ].
              apply Hext; assumption.
           ++ destruct IH as [Hk [Hr Hall]]. split; [lia | ]. split; [exact Hr | ].
              apply Hext; assumption.
           ++ destruct IH as [Hk [Hr Hall]]. split; [lia | ]. split; [exact Hr | ].
              apply Hext; assumption.
           ++ destruct IH as [Hk [Hr [Ho Hall]]]. split; [lia | ]. split; [exact Hr | ].
              split; [exact Ho | ]. apply Hext; assumption.
    + split; [lia | ]. split; [exact Hreply | intros j Hj; lia].
Qed.

(** Iterations that go round the loop are passed over. *)
Lemma loop_exit_skip (w : World) (n : nat) :
  forall (fuel i : nat),
    (forall j, (i <= j < i + n)%nat -> continues_at w j) ->
    loop_exit_from w (n + fuel) i = loop_exit_from w fuel (i + n).
Proof.
  induction n as [ | n IH]; intros fuel i Hall.
  - simpl. rewrite Nat.add_0_r. reflexivity.
  - destruct (continues_at_inv w i) as [r [Hr [Hn Ht]]]; [apply Hall; lia | ].
    cbn [Nat.add loop_exit_from]. rewrite Hr, Hn, Ht.
    rewrite IH; [ | intros j Hj; apply Hall; lia].
    f_equal. lia.
Qed.

Section ExitReached.

Variables (w : World) (k fuel : nat).
Hypothesis before : forall j, (j < k)%nat -> continues_at w j.
Hypothesis enough : (k < fuel)%nat.

Lemma loop_exit_at :
  loop_exit_from w fuel 0 = loop_exit_from w (S (fuel - S k)) k.
Proof.
  replace fuel with (k + S (fuel - S k))%nat at 1 by lia.
  rewrite loop_exit_skip; [reflexivity | intros j Hj; apply before; lia].
Qed.

Lemma loop_exit_ready :
  ready_at w k -> loop_exit_from w fuel 0 = SawReady k.
Proof.
  intros [r [Hr Hy]]. rewrite loop_exit_at. cbn [loop_exit_from].
  rewrite Hr, Hy. reflexivity.
Qed.

Lemma loop_exit_failed (e : thrown) :
  status_at w k = Rejected e -> loop_exit_from w fuel 0 = StatusFailed k e.
Proof.
  intros Hr. rewrite loop_exit_at. cbn [loop_exit_from]. rewrite Hr. reflexivity.
Qed.

Lemma loop_exit_timed_out :
  not_ready_at w k -> timed_out_at w k = true ->
  loop_exit_from w fuel 0 = TimedOut k.
Proof.
  intros [r [Hr Hn]] Ht. rewrite loop_exit_at. cbn [loop_exit_from].
  rewrite Hr, Hn, Ht. reflexivity.
Qed.

End ExitReached.

Lemma loop_exit_pending (w : World) (fuel : nat) :
  (forall j, (j < fuel)%nat -> continues_at w j) ->
  loop_exit_from w fuel 0 = StillPolling fuel.
Proof.
  intros Hall. replace fuel with (fuel + 0)%nat at 1 by lia.
  rewrite loop_exit_skip; [reflexivity | intros j Hj; apply Hall; lia].
Qed.

(** ** What a trace of the loop contains *)

Lemma count_app (p : event -> bool) (t1 t2 : list event) :
  count p (t1 ++ t2) = (count p t1 + count p t2)%nat.
Proof.
  induction t1 as [ | ev t1 IH]; simpl; [reflexivity | rewrite IH; lia].
Qed.

Lemma outputs_of_app (t1 t2 : list event) :
  outputs_of (t1 ++ t2) = foldl record_output (outputs_of t1) t2.
Proof. unfold outputs_of. apply foldl_app. Qed.

Lemma failure_of_app (t1 t2 : list event) :
  failure_of (t1 ++ t2) = foldl record_failure (failure_of t1) t2.
Proof. unfold failure_of. apply foldl_app. Qed.

Lemma metrics_trace_counts (w : World) (name : string) :
  count is_start_call (metrics_trace w name) = 0%nat /\
  count is_status_call (metrics_trace w name) = 0%nat /\
  count is_metrics_call (metrics_trace w name) = 1%nat.
Proof.
  unfold metrics_trace. destruct (getCrawlerMetrics w [name]); repeat split; reflexivity.
Qed.

Lemma metrics_trace_outputs (w : World) (outs : gmap string string) :
  foldl record_output (<["state" := "READY"]> outs) (metrics_trace w (crawlerName w)) =
  ready_outputs w outs.
Proof.
  unfold metrics_trace, ready_outputs, reported_metrics.
  destruct (getCrawlerMetrics w [crawlerName w]); reflexivity.
Qed.

Lemma metrics_trace_failure (w : World) (name : string) (signal : option string) :
  foldl record_failure signal (metrics_trace w name) = signal.
Proof.
  unfold metrics_trace. destruct (getCrawlerMetrics w [name]); reflexivity.
Qed.

Lemma loop_trace_counts (w : World) (fuel : nat) :
  forall i : nat,
    count is_start_call (loop_trace_from w fuel i) = 0%nat /\
    count is_metrics_call (loop_trace_from w fuel i) =
      metrics_calls (loop_exit_from w fuel i) /\
    count is_status_call (loop_trace_from w fuel i) =
      status_calls (loop_exit_from w fuel i) i.
Proof.
  induction fuel as [ | fuel IH]; intros i; cbn [loop_exit_from loop_trace_from].
  - simpl. repeat split; lia.
  - destruct (status_at w i) as [r | e].
    + destruct (is_ready (state_of r)).
      * destruct (metrics_trace_counts w (crawlerName w)) as [Hs [Hg Hm]].
        cbn [app count is_start_call is_metrics_call is_status_call].
        rewrite !count_app, Hs, Hg, Hm. simpl. repeat split; lia.
      * destruct (timed_out_at w i).
        -- simpl. repeat split; lia.
        -- destruct (IH (S i)) as [Hs [Hm Hg]].
           pose proof (loop_exit_sound w fuel (S i)) as Hx.
           cbn [app count is_start_call is_metrics_call is_status_call].
           rewrite Hs, Hm, Hg.
           destruct (loop_exit_from w fuel (S i)); simpl in *; repeat split; lia.
    + simpl. repeat split; lia.
Qed.

Lemma loop_trace_outputs (w : World) (fuel : nat) :
  forall (i : nat) (outs : gmap string string),
    foldl record_output outs (loop_trace_from w fuel i) =
    match loop_exit_from w fuel i with
    | SawReady _ => ready_outputs w outs
    | _ => outs
    end.
Proof.
  induction fuel as [ | fuel IH]; intros i outs; cbn [loop_exit_from loop_trace_from].
  - reflexivity.
  - destruct (status_at w i) as [r | e]; [ | reflexivity].
    destruct (is_ready (state_of r)).
    + cbn [app foldl record_output]. rewrite foldl_app, metrics_trace_outputs. reflexivity.
    + destruct (timed_out_at w i); [reflexivity | ].
      cbn [app foldl record_output]. apply IH.
Qed.

Lemma loop_trace_failure (w : World) (fuel : nat) :
  forall (i : nat) (signal : option string),
    foldl record_failure signal (loop_trace_from w fuel i) = signal.
Proof.
  induction fuel as [ | fuel IH]; intros i signal; cbn [loop_trace_from].
  - reflexivity.
  - destruct (status_at w i) as [r | e]; [ | reflexivity].
    destruct (is_ready (state_of r)).
    + cbn [app foldl record_failure]. rewrite foldl_app, metrics_trace_failure. reflexivity.
    + destruct (timed_out_at w i); [reflexivity | ].
      cbn [app foldl record_failure]. apply IH.
Qed.

(** ** The whole of [run] *)

(** The [catch] of [run]: a throw of the [try] block becomes the failure
    signal and the success output; anything else is left as it is. *)
Lemma run_of_body (w : World) (fuel : nat) (m : Machine) :
  run w fuel m =
    match run_body w fuel m with
    | (Abrupt error, m') => (Normal tt, extend m' (failure_events error) 0 0)
    | other => other
    end.
Proof.
  unfold run, try_catch. destruct (run_body w fuel m) as [[u | error | ] m']; try reflexivity.
  unfold bind, setFailed, setOutput, emit, extend, failure_events. simpl.
  f_equal. machine_equal.
Qed.

Lemma run_body_waiting (w : World) (fuel : nat) :
  supplied w "crawler-name" ->
  startCrawler w (crawlerName w) = Resolved tt ->
  waitForCompletion w = true ->
  fst (run_body w fuel initial) = exit_completion w (loop_exit_from w fuel 0) /\
  trace (snd (run_body w fuel initial)) =
    trace (loop_entry w) ++ loop_trace_from w fuel 0.
Proof.
  intros Hs Hr Hw. rewrite (run_body_wait w fuel Hs Hr Hw).
  apply poll_from; reflexivity.
Qed.

(** ** Waiting: what [run] leaves behind, by exit *)

Section Waiting.

Variables (w : World) (fuel : nat).
Hypothesis name_supplied : supplied w "crawler-name".
Hypothesis start_ok : startCrawler w (crawlerName w) = Resolved tt.
Hypothesis waiting : waitForCompletion w = true.

Lemma run_waiting_trace :
  fst (run w fuel initial) = exit_outcome (loop_exit_from w fuel 0) /\
  trace (snd (run w fuel initial)) =
    trace (loop_entry w) ++ loop_trace_from w fuel 0 ++
    exit_events w (loop_exit_from w fuel 0).
Proof.
  destruct (run_body_waiting w fuel name_supplied start_ok waiting) as [Hc Ht].
  rewrite run_of_body. unfold exit_events.
  destruct (run_body w fuel initial) as [c m']. cbn [fst snd] in Hc, Ht.
  rewrite <- Hc.
  destruct c as [[] | error | ]; cbn [fst snd extend trace].
  - rewrite app_nil_r. split; [ | exact Ht].
    destruct (loop_exit_from w fuel 0); simpl in Hc; try discriminate; reflexivity.
  - rewrite Ht, <- app_assoc. split; [ | reflexivity].
    destruct (loop_exit_from w fuel 0); simpl in Hc; try discriminate; reflexivity.
  - rewrite app_nil_r. split; [ | exact Ht].
    destruct (loop_exit_from w fuel 0); simpl in Hc; try discriminate; reflexivity.
Qed.

Lemma run_waiting_calls :
  count is_start_call (trace (snd (run w fuel initial))) = 1%nat /\
  count is_status_call (trace (snd (run w fuel initial))) =
    status_calls (loop_exit_from w fuel 0) 0 /\
  count is_metrics_call (trace (snd (run w fuel initial))) =
    metrics_calls (loop_exit_from w fuel 0).
Proof.
  destruct run_waiting_trace as [_ Ht]. rewrite Ht.
  destruct (loop_trace_counts w fuel 0) as [Hs [Hm Hg]].
  rewrite !count_app, Hs, Hm, Hg.
  assert (Hev : forall x,
                count is_start_call (exit_events w x) = 0%nat /\
                count is_status_call (exit_events w x) = 0%nat /\
                count is_metrics_call (exit_events w x) = 0%nat).
  { intros x. unfold exit_events. destruct (exit_completion w x); repeat split; reflexivity. }
  destruct (Hev (loop_exit_from w fuel 0)) as [-> [-> ->]]. simpl. repeat split; lia.
Qed.

Lemma run_waiting_outputs :
  outputs_of (trace (snd (run w fuel initial))) = exit_outputs w (loop_exit_from w fuel 0).
Proof.
  destruct run_waiting_trace as [_ Ht]. rewrite Ht.
  rewrite outputs_of_app, foldl_app, loop_trace_outputs.
  assert (Hentry : outputs_of (trace (loop_entry w)) = {[ "success" := "true" ]}).
  { vm_compute. reflexivity. }
  rewrite Hentry. unfold exit_events, exit_outputs.
  destruct (loop_exit_from w fuel 0);
    cbn [exit_completion failure_events foldl record_output];
    try reflexivity; vm_compute; reflexivity.
Qed.

Lemma run_waiting_failure :
  failure_of (trace (snd (run w fuel initial))) = exit_failure w (loop_exit_from w fuel 0).
Proof.
  destruct run_waiting_trace as [_ Ht]. rewrite Ht.
  rewrite failure_of_app, foldl_app, loop_trace_failure.
  unfold exit_events, exit_failure.
  destruct (exit_completion w (loop_exit_from w fuel 0)); reflexivity.
Qed.

End Waiting.

(** ** C1: not waiting *)

(** C1, counterexample: in [world_no_wait] the step ends after the start
    call and the output tables-created has no value at all, so it is not
    zero. *)
Lemma no_wait_metric_outputs_not_zero : ~ no_wait_reports_zero_metrics.
Proof.
  intros Hclaim.
  destruct (Hclaim world_no_wait 0%nat) as (_ & _ & _ & Hcreated & _).
  - unfold supplied. vm_compute. discriminate.
  - reflexivity.
  - reflexivity.
  - vm_compute in Hcreated. discriminate.
Qed.

(** C1, amended: for every configuration with a crawler name and
    waitForCompletion false, once the start call has succeeded [run]
    returns at once: the outputs are exactly success = true and
    state = RUNNING, the three metric outputs are left unset, nothing is
    signalled as failed, and no status call, metrics call, clock reading or
    sleep is made. *)
Theorem no_wait_returns_after_start (w : World) (fuel : nat) :
  supplied w "crawler-name" ->
  startCrawler w (crawlerName w) = Resolved tt ->
  waitForCompletion w = false ->
  let t := trace (snd (run w fuel initial)) in
  fst (run w fuel initial) = Normal tt /\
  t = start_trace w ++
      [SetOutput "success" "true";
       Info "Not waiting for crawler completion (wait-for-completion is false)";
       SetOutput "state" "RUNNING"] /\
  outputs_of t = {[ "success" := "true"; "state" := "RUNNING" ]} /\
  outputs_of t !! "tables-created" = None /\
  outputs_of t !! "tables-updated" = None /\
  outputs_of t !! "tables-deleted" = None /\
  failure_of t = None /\
  count is_start_call t = 1%nat /\
  count is_status_call t = 0%nat /\
  count is_metrics_call t = 0%nat /\
  ticks (snd (run w fuel initial)) = 0%nat.
Proof.
  intros Hs Hr Hw. cbv zeta.
  rewrite run_of_body, (run_body_no_wait w fuel Hs Hr Hw). cbn [fst snd trace ticks].
  assert (Houts : outputs_of (start_trace w ++
      [SetOutput "success" "true";
       Info "Not waiting for crawler completion (wait-for-completion is false)";
       SetOutput "state" "RUNNING"]) = {[ "success" := "true"; "state" := "RUNNING" ]}).
  { vm_compute. reflexivity. }
  rewrite Houts.
  repeat split; reflexivity.
Qed.

Lemma no_wait_returns_after_start_witness :
  supplied world_no_wait "crawler-name" /\
  startCrawler world_no_wait (crawlerName world_no_wait) = Resolved tt /\
  waitForCompletion world_no_wait = false /\
  outputs_of (trace (snd (run world_no_wait 5 initial))) =
    {[ "success" := "true"; "state" := "RUNNING" ]} /\
  outputs_of (trace (snd (run world_no_wait 5 initial))) !! "tables-created" = None /\
  count is_status_call (trace (snd (run world_no_wait 5 initial))) = 0%nat /\
  count is_metrics_call (trace (snd (run world_no_wait 5 initial))) = 0%nat.
Proof.
  assert (Hs : supplied world_no_wait "crawler-name").
  { unfold supplied. vm_compute. discriminate. }
  assert (Hr : startCrawler world_no_wait (crawlerName world_no_wait) = Resolved tt)
    by reflexivity.
  assert (Hw : waitForCompletion world_no_wait = false) by reflexivity.
  destruct (no_wait_returns_after_start world_no_wait 5 Hs Hr Hw)
    as (_ & _ & Ho & Hc & _ & _ & _ & _ & Hp & Hm & _).
  repeat split; assumption.
Defined.

(** ** C4: the crawler name is missing *)

(** C4: when the crawler-name input is absent or empty, [run] fails with
    the configuration error before any remote call: the trace holds only
    the failure signal and the success output false; no start, status or
    metrics call is made. *)
Theorem missing_crawler_name_fails_fast (w : World) (fuel : nat) :
  inputs w !! "crawler-name" = None \/ inputs w !! "crawler-name" = Some "" ->
  let t := trace (snd (run w fuel initial)) in
  fst (run w fuel initial) = Normal tt /\
  t = [SetFailed "Input required and not supplied: crawler-name";
       SetOutput "success" "false"] /\
  failure_of t = Some "Input required and not supplied: crawler-name" /\
  outputs_of t = {[ "success" := "false" ]} /\
  count is_remote_call t = 0%nat /\
  count is_start_call t = 0%nat /\
  count is_status_call t = 0%nat /\
  count is_metrics_call t = 0%nat.
Proof.
  intros Hmiss. apply missing_cases in Hmiss. cbv zeta.
  rewrite run_of_body, (run_body_missing w fuel Hmiss).
  cbn [fst snd extend trace initial app failure_events failure_message].
  repeat split; reflexivity.
Qed.

Lemma missing_crawler_name_fails_fast_witness :
  inputs world_no_name !! "crawler-name" = None /\
  trace (snd (run world_no_name 3 initial)) =
    [SetFailed "Input required and not supplied: crawler-name";
     SetOutput "success" "false"] /\
  count is_remote_call (trace (snd (run world_no_name 3 initial))) = 0%nat.
Proof.
  assert (Hnone : inputs world_no_name !! "crawler-name" = None) by reflexivity.
  destruct (missing_crawler_name_fails_fast world_no_name 3 (or_introl Hnone))
    as (_ & Ht & _ & _ & Hc & _).
  repeat split; assumption.
Defined.

(** ** C5: READY on the first poll *)

(** C5: when waiting and the first status call answers READY, [run] makes
    exactly one status call and exactly one metrics call (and one start
    call), and returns with success = true and no failure signal. *)
Theorem ready_on_first_poll (w : World) (fuel : nat) :
  supplied w "crawler-name" ->
  startCrawler w (crawlerName w) = Resolved tt ->
  waitForCompletion w = true ->
  ready_at w 0 ->
  (0 < fuel)%nat ->
  let t := trace (snd (run w fuel initial)) in
  fst (run w fuel initial) = Normal tt /\
  count is_start_call t = 1%nat /\
  count is_status_call t = 1%nat /\
  count is_metrics_call t = 1%nat /\
  outputs_of t !! "success" = Some "true" /\
  outputs_of t !! "state" = Some "READY" /\
  failure_of t = None.
Proof.
  intros Hs Hr Hw Hready Hfuel. cbv zeta.
  assert (Hx : loop_exit_from w fuel 0 = SawReady 0).
  { apply loop_exit_ready; [intros j Hj; lia | exact Hfuel | exact Hready]. }
  destruct (run_waiting_trace w fuel Hs Hr Hw) as [Hc _].
  destruct (run_waiting_calls w fuel Hs Hr Hw) as (Hst & Hpoll & Hmet).
  pose proof (run_waiting_outputs w fuel Hs Hr Hw) as Hout.
  pose proof (run_waiting_failure w fuel Hs Hr Hw) as Hfail.
  cbv zeta in Hc, Hst, Hpoll, Hmet, Hout, Hfail.
  rewrite Hx in Hc, Hpoll, Hmet, Hout, Hfail.
  rewrite Hc, Hst, Hpoll, Hmet, Hout, Hfail.
  unfold exit_outputs, ready_outputs. destruct (reported_metrics w) as [[c u] d].
  repeat split; reflexivity.
Qed.

Lemma ready_on_first_poll_witness :
  supplied world_ready_at_once "crawler-name" /\
  waitForCompletion world_ready_at_once = true /\
  ready_at world_ready_at_once 0 /\
  count is_status_call (trace (snd (run world_ready_at_once 4 initial))) = 1%nat /\
  count is_metrics_call (trace (snd (run world_ready_at_once 4 initial))) = 1%nat.
Proof.
  assert (Hs : supplied world_ready_at_once "crawler-name").
  { unfold supplied. vm_compute. discriminate. }
  assert (Hw : waitForCompletion world_ready_at_once = true) by reflexivity.
  assert (Hready : ready_at world_ready_at_once 0).
  { eexists. split; reflexivity. }
  destruct (ready_on_first_poll world_ready_at_once 4 Hs eq_refl Hw Hready)
    as (_ & _ & Hpoll & Hmet & _); [lia | ].
  repeat split; assumption.
Defined.

(** ** C3: the metrics call fails after READY *)

(** The READY branch leaves its events at the end of the loop's trace. *)
Lemma loop_trace_ready (w : World) (fuel : nat) :
  forall i k : nat,
    loop_exit_from w fuel i = SawReady k ->
    exists before,
      loop_trace_from w fuel i =
        before ++ metrics_trace w (crawlerName w) ++ [Info "Crawler completed successfully"].
Proof.
  induction fuel as [ | fuel IH]; intros i k; cbn [loop_exit_from loop_trace_from].
  - discriminate.
  - destruct (status_at w i) as [r | e]; [ | discriminate].
    destruct (is_ready (state_of r)).
    + intros _.
      exists [GetCrawlerCall (crawlerName w); Info "Crawler state: READY";
              SetOutput "state" "READY"]. reflexivity.
    + destruct (timed_out_at w i); [discriminate | ].
      intros Hx. destruct (IH (S i) k Hx) as [before Hb].
      rewrite Hb.
      exists ([GetCrawlerCall (crawlerName w);
               Info ("Crawler state: " +:+ js_opt_to_string (state_of r));
               Sleep 10000] ++ before).
      rewrite <- app_assoc. reflexivity.
Qed.

(** C3: when the loop reaches READY (at any poll [k]) and the metrics call
    is then rejected, with whatever value, the failure is not propagated:
    [run] returns normally, raises no failure signal, logs the warning,
    and the outputs are success = true, state = READY and the three metric
    outputs equal to "0". *)
Theorem metrics_failure_is_swallowed (w : World) (fuel k : nat) (e : thrown) :
  supplied w "crawler-name" ->
  startCrawler w (crawlerName w) = Resolved tt ->
  waitForCompletion w = true ->
  (forall j, (j < k)%nat -> continues_at w j) ->
  ready_at w k ->
  getCrawlerMetrics w [crawlerName w] = Rejected e ->
  (k < fuel)%nat ->
  let t := trace (snd (run w fuel initial)) in
  fst (run w fuel initial) = Normal tt /\
  failure_of t = None /\
  outputs_of t =
    {[ "success" := "true"; "state" := "READY"; "tables-created" := "0";
       "tables-updated" := "0"; "tables-deleted" := "0" ]} /\
  In (Warning "Could not retrieve crawler metrics") t /\
  count is_metrics_call t = 1%nat.
Proof.
  intros Hs Hr Hw Hbefore Hready Hmetrics Hfuel. cbv zeta.
  assert (Hx : loop_exit_from w fuel 0 = SawReady k).
  { apply loop_exit_ready; assumption. }
  destruct (run_waiting_trace w fuel Hs Hr Hw) as [Hc Ht].
  destruct (run_waiting_calls w fuel Hs Hr Hw) as (_ & _ & Hmet).
  pose proof (run_waiting_outputs w fuel Hs Hr Hw) as Hout.
  pose proof (run_waiting_failure w fuel Hs Hr Hw) as Hfail.
  cbv zeta in Hc, Ht, Hmet, Hout, Hfail.
  rewrite Hx in Hc, Hmet, Hout, Hfail.
  split; [exact Hc | ]. split; [exact Hfail | ].
  split; [ | split; [ | exact Hmet]].
  - rewrite Hout. unfold exit_outputs, ready_outputs, reported_metrics.
    rewrite Hmetrics. vm_compute. reflexivity.
  - rewrite Ht. destruct (loop_trace_ready w fuel 0 k Hx) as [before Hb].
    rewrite Hb. unfold metrics_trace. rewrite Hmetrics.
    apply in_or_app. right. apply in_or_app. left.
    apply in_or_app. right. simpl. right. left. reflexivity.
Qed.

Lemma metrics_failure_is_swallowed_witness :
  supplied world_metrics_fail "crawler-name" /\
  waitForCompletion world_metrics_fail = true /\
  ready_at world_metrics_fail 2 /\
  getCrawlerMetrics world_metrics_fail [crawlerName world_metrics_fail] =
    Rejected (OtherValue "throttled") /\
  fst (run world_metrics_fail 9 initial) = Normal tt /\
  outputs_of (trace (snd (run world_metrics_fail 9 initial))) =
    {[ "success" := "true"; "state" := "READY"; "tables-created" := "0";
       "tables-updated" := "0"; "tables-deleted" := "0" ]}.
Proof.
  assert (Hs : supplied world_metrics_fail "crawler-name").
  { unfold supplied. vm_compute. discriminate. }
  assert (Hw : waitForCompletion world_metrics_fail = true) by reflexivity.
  assert (Hready : ready_at world_metrics_fail 2).
  { eexists. split; reflexivity. }
  assert (Hbefore : forall j, (j < 2)%nat -> continues_at world_metrics_fail j).
  { intros j Hj. destruct j as [ | [ | j]]; [ | | lia];
      (split; [eexists; split; reflexivity | reflexivity]). }
  destruct (metrics_failure_is_swallowed world_metrics_fail 9 2 (OtherValue "throttled")
              Hs eq_refl Hw Hbefore Hready eq_refl) as (Hc & _ & Hout & _); [lia | ].
  repeat split; assumption.
Defined.

(** ** C2: the timeout *)

(** The first index at which a test holds, below one where it holds. *)
Lemma first_true (p : nat -> bool) :
  forall k : nat,
    p k = true ->
    exists k0, (k0 <= k)%nat /\ p k0 = true /\ forall j, (j < k0)%nat -> p j = false.
Proof.
  intros k. revert p. induction k as [ | k IH]; intros p Hk.
  - exists 0%nat. split; [lia | ]. split; [exact Hk | intros j Hj; lia].
  - destruct (p 0%nat) eqn:H0.
    + exists 0%nat. split; [lia | ]. split; [exact H0 | intros j Hj; lia].
    + destruct (IH (fun n => p (S n)) Hk) as (k0 & Hle & Hp & Hlow).
      exists (S k0). split; [lia | ]. split; [exact Hp | ].
      intros [ | j] Hj; [exact H0 | apply Hlow; lia].
Qed.

Lemma timeout_message_contains (n : jsnum) :
  contains (js_num_to_string n) (timeout_message n).
Proof.
  exists "Crawler did not complete within ", " minutes". reflexivity.
Qed.

Lemma safe_integer_text (n : Z) :
  Z.abs n <= 2 ^ 53 -> js_num_to_string (Num n) = pretty n.
Proof.
  intros Hsafe. unfold js_num_to_string, safe_integer.
  destruct (Z.leb_spec (Z.abs n) (2 ^ 53)) as [_ | Hbig]; [reflexivity | lia].
Qed.

(** The timeout of line 69 fires at the first poll at which the bound is
    exceeded, when no poll up to there has seen READY. *)
Lemma run_times_out (w : World) (k : nat) :
  supplied w "crawler-name" ->
  startCrawler w (crawlerName w) = Resolved tt ->
  waitForCompletion w = true ->
  (forall j, (j <= k)%nat -> not_ready_at w j) ->
  timed_out_at w k = true ->
  exists k0, (k0 <= k)%nat /\
    forall fuel, (k0 < fuel)%nat ->
      fst (run w fuel initial) = Normal tt /\
      failure_of (trace (snd (run w fuel initial))) =
        Some (timeout_message (timeoutMinutes w)) /\
      outputs_of (trace (snd (run w fuel initial))) = {[ "success" := "false" ]} /\
      count is_metrics_call (trace (snd (run w fuel initial))) = 0%nat /\
      count is_status_call (trace (snd (run w fuel initial))) = S k0.
Proof.
  intros Hs Hr Hw Hnot Hout.
  destruct (first_true (timed_out_at w) k Hout) as (k0 & Hle & Hk0 & Hlow).
  exists k0. split; [exact Hle | ]. intros fuel Hfuel.
  assert (Hx : loop_exit_from w fuel 0 = TimedOut k0).
  { apply loop_exit_timed_out; [ | exact Hfuel | apply Hnot; lia | exact Hk0].
    intros j Hj. split; [apply Hnot; lia | apply Hlow; exact Hj]. }
  destruct (run_waiting_trace w fuel Hs Hr Hw) as [Hc _].
  destruct (run_waiting_calls w fuel Hs Hr Hw) as (_ & Hpoll & Hmet).
  pose proof (run_waiting_outputs w fuel Hs Hr Hw) as Houts.
  pose proof (run_waiting_failure w fuel Hs Hr Hw) as Hfail.
  rewrite Hx in Hc, Hpoll, Hmet, Houts, Hfail.
  split; [exact Hc | ]. split; [exact Hfail | ].
  split; [exact Houts | ]. split; [exact Hmet | ].
  rewrite Hpoll. simpl. lia.
Qed.

(** C2: when waiting with a bound of [n] minutes, if at some poll [k] the
    elapsed time exceeds [n * 60 * 1000] milliseconds and no status call up
    to [k] has answered READY, then [run] fails at the first such poll:
    the failure signal is the timeout message, which contains [n] as the
    template of line 70 prints it (the decimal numeral of [n] whenever [n]
    is at most 2^53 in magnitude); the success output is false; no metrics
    call is made. *)
Theorem timeout_fails_with_minutes (w : World) (n : Z) (k : nat) :
  supplied w "crawler-name" ->
  startCrawler w (crawlerName w) = Resolved tt ->
  waitForCompletion w = true ->
  timeoutMinutes w = Num n ->
  (forall j, (j <= k)%nat -> not_ready_at w j) ->
  n * 60 * 1000 < elapsed_at w k ->
  exists k0, (k0 <= k)%nat /\
    forall fuel, (k0 < fuel)%nat ->
      let t := trace (snd (run w fuel initial)) in
      fst (run w fuel initial) = Normal tt /\
      failure_of t =
        Some ("Crawler did not complete within " +:+ js_num_to_string (Num n) +:+
              " minutes") /\
      contains (js_num_to_string (Num n))
        ("Crawler did not complete within " +:+ js_num_to_string (Num n) +:+ " minutes") /\
      (Z.abs n <= 2 ^ 53 -> js_num_to_string (Num n) = pretty n) /\
      outputs_of t = {[ "success" := "false" ]} /\
      count is_metrics_call t = 0%nat /\
      count is_status_call t = S k0.
Proof.
  intros Hs Hr Hw Hn Hnot Hlate.
  assert (Hout : timed_out_at w k = true).
  { unfold timed_out_at, timeoutMs. rewrite Hn. simpl. apply Z.ltb_lt. exact Hlate. }
  destruct (run_times_out w k Hs Hr Hw Hnot Hout) as (k0 & Hle & Hrun).
  exists k0. split; [exact Hle | ]. intros fuel Hfuel. cbv zeta.
  destruct (Hrun fuel Hfuel) as (Hc & Hfail & Houts & Hmet & Hpoll).
  rewrite Hn in Hfail.
  split; [exact Hc | ]. split; [exact Hfail | ].
  split; [apply (timeout_message_contains (Num n)) | ].
  split; [apply safe_integer_text | ].
  split; [exact Houts | ]. split; [exact Hmet | exact Hpoll].
Qed.

Lemma timeout_fails_with_minutes_witness :
  supplied world_never_ready "crawler-name" /\
  waitForCompletion world_never_ready = true /\
  timeoutMinutes world_never_ready = Num 1 /\
  1 * 60 * 1000 < elapsed_at world_never_ready 8 /\
  exists k0, (k0 <= 8)%nat /\
    failure_of (trace (snd (run world_never_ready (S k0) initial))) =
      Some "Crawler did not complete within 1 minutes" /\
    count is_metrics_call (trace (snd (run world_never_ready (S k0) initial))) = 0%nat.
Proof.
  assert (Hs : supplied world_never_ready "crawler-name").
  { unfold supplied. vm_compute. discriminate. }
  assert (Hw : waitForCompletion world_never_ready = true) by reflexivity.
  assert (Hn : timeoutMinutes world_never_ready = Num 1) by reflexivity.
  assert (Hnot : forall j, (j <= 8)%nat -> not_ready_at world_never_ready j).
  { intros j _. eexists. split; reflexivity. }
  assert (Hlate : 1 * 60 * 1000 < elapsed_at world_never_ready 8).
  { vm_compute. reflexivity. }
  destruct (timeout_fails_with_minutes world_never_ready 1 8 Hs eq_refl Hw Hn Hnot Hlate)
    as (k0 & Hle & Hrun).
  destruct (Hrun (S k0) (Nat.lt_succ_diag_r k0)) as (_ & Hfail & _ & _ & _ & Hmet & _).
  split; [exact Hs | ]. split; [exact Hw | ]. split; [exact Hn | ].
  split; [exact Hlate | ].
  exists k0. split; [exact Hle | ]. split; [exact Hfail | exact Hmet].
Defined.

(** ** C7 and C9: the [catch] of [run] *)

(** Whatever the [try] block throws, [run] itself returns normally, having
    added the failure signal and the success output false. *)
Lemma run_failure (w : World) (fuel : nat) (error : thrown) (m : Machine) :
  run_body w fuel initial = (Abrupt error, m) ->
  fst (run w fuel initial) = Normal tt /\
  trace (snd (run w fuel initial)) =
    trace m ++ [SetFailed (failure_message error); SetOutput "success" "false"] /\
  failure_of (trace (snd (run w fuel initial))) = Some (failure_message error) /\
  outputs_of (trace (snd (run w fuel initial))) =
    <["success" := "false"]> (outputs_of (trace m)).
Proof.
  intros Hbody. rewrite run_of_body, Hbody. cbn [fst snd extend trace failure_events].
  split; [reflexivity | ]. split; [reflexivity | ].
  rewrite failure_of_app, outputs_of_app. split; reflexivity.
Qed.

(** A throw of the [try] block comes from one of the four steps, and has
    left no output but, possibly, success. *)
Lemma run_body_throws (w : World) (fuel : nat) (error : thrown) (m : Machine) :
  run_body w fuel initial = (Abrupt error, m) ->
  fatal_step w error /\
  <["success" := "false"]> (outputs_of (trace m)) = {[ "success" := "false" ]}.
Proof.
  intros Hbody.
  destruct (String.eqb_spec (default "" (inputs w !! "crawler-name")) "") as [Hempty | Hfull].
  - assert (Hmiss : ~ supplied w "crawler-name") by (intros Hs; apply Hs; exact Hempty).
    rewrite (run_body_missing w fuel Hmiss) in Hbody. inversion Hbody; subst.
    split; [apply ConfigurationError; [exact Hmiss | reflexivity] | ].
    vm_compute. reflexivity.
  - assert (Hs : supplied w "crawler-name") by exact Hfull.
    destruct (startCrawler w (crawlerName w)) as [[] | e] eqn:Hstart.
    + destruct (waitForCompletion w) eqn:Hw.
      * destruct (run_body_waiting w fuel Hs Hstart Hw) as [Hc Ht].
        rewrite Hbody in Hc, Ht. cbn [fst snd] in Hc, Ht.
        pose proof (loop_exit_sound w fuel 0) as Hx.
        pose proof (loop_trace_outputs w fuel 0 {[ "success" := "true" ]}) as Ho.
        assert (Hentry : outputs_of (trace (loop_entry w)) = {[ "success" := "true" ]}).
        { vm_compute. reflexivity. }
        rewrite Ht, outputs_of_app, Hentry, Ho.
        destruct (loop_exit_from w fuel 0) as [n | k | k e | k];
          cbn [exit_completion] in Hc; try discriminate.
        -- inversion Hc; subst e. destruct Hx as (_ & Hrej & Hbefore).
           split; [ | vm_compute; reflexivity].
           apply (StatusRejection w error k Hs Hstart Hw); [ | exact Hrej].
           intros j Hj. apply Hbefore. lia.
        -- inversion Hc as [He]. destruct Hx as (_ & Hnot & Hout & Hbefore).
           split; [ | vm_compute; reflexivity].
           apply (Timeout w _ k Hs Hstart Hw); [ | exact Hnot | exact Hout | reflexivity].
           intros j Hj. apply Hbefore. lia.
      * rewrite (run_body_no_wait w fuel Hs Hstart Hw) in Hbody. discriminate.
    + rewrite (run_body_start_rejected w fuel e Hs Hstart) in Hbody.
      inversion Hbody; subst.
      split; [apply StartRejection; [exact Hs | exact Hstart] | ].
      vm_compute. reflexivity.
Qed.

Lemma run_body_status_rejected (w : World) (fuel k : nat) (error : thrown) :
  supplied w "crawler-name" ->
  startCrawler w (crawlerName w) = Resolved tt ->
  waitForCompletion w = true ->
  (forall j, (j < k)%nat -> continues_at w j) ->
  status_at w k = Rejected error ->
  (k < fuel)%nat ->
  fst (run_body w fuel initial) = Abrupt error.
Proof.
  intros Hs Hr Hw Hbefore Hrej Hfuel.
  destruct (run_body_waiting w fuel Hs Hr Hw) as [Hc _]. rewrite Hc.
  rewrite (loop_exit_failed w k fuel Hbefore Hfuel error Hrej). reflexivity.
Qed.

Lemma run_body_timed_out (w : World) (fuel k : nat) :
  supplied w "crawler-name" ->
  startCrawler w (crawlerName w) = Resolved tt ->
  waitForCompletion w = true ->
  (forall j, (j < k)%nat -> continues_at w j) ->
  not_ready_at w k ->
  timed_out_at w k = true ->
  (k < fuel)%nat ->
  fst (run_body w fuel initial) =
    Abrupt (ErrorInstance (timeout_message (timeoutMinutes w))).
Proof.
  intros Hs Hr Hw Hbefore Hnot Hout Hfuel.
  destruct (run_body_waiting w fuel Hs Hr Hw) as [Hc _]. rewrite Hc.
  rewrite (loop_exit_timed_out w k fuel Hbefore Hfuel Hnot Hout). reflexivity.
Qed.

(** Each of the four steps does throw, given fuel for the polls before
    it. *)
Lemma fatal_step_throws (w : World) (error : thrown) :
  fatal_step w error ->
  exists fuel m, run_body w fuel initial = (Abrupt error, m).
Proof.
  intros [Hmiss -> | Hs Hrej | k Hs Hr Hw Hbefore Hrej | k Hs Hr Hw Hbefore Hnot Hout ->].
  - exists 0%nat, initial. apply run_body_missing. exact Hmiss.
  - exists 0%nat. eexists. apply run_body_start_rejected; assumption.
  - exists (S k), (snd (run_body w (S k) initial)).
    pose proof (run_body_status_rejected w (S k) k error Hs Hr Hw Hbefore Hrej
                  (Nat.lt_succ_diag_r k)) as Hc.
    destruct (run_body w (S k) initial) as [c m]. simpl in Hc |- *. rewrite Hc. reflexivity.
  - exists (S k), (snd (run_body w (S k) initial)).
    pose proof (run_body_timed_out w (S k) k Hs Hr Hw Hbefore Hnot Hout
                  (Nat.lt_succ_diag_r k)) as Hc.
    destruct (run_body w (S k) initial) as [c m]. simpl in Hc |- *. rewrite Hc. reflexivity.
Qed.

(** C7: the [try] block of [run] throws exactly at one of four steps (the
    configuration error, the rejection of the start call, the rejection of
    a status call, the timeout); whenever it throws, [run] ends with the
    failure signal carrying the message (the message of the error when it
    is an [Error]), the success output false, and no other output: state
    and the three metric outputs are unset. *)
Theorem fatal_failure_reports_false (w : World) (error : thrown) :
  (fatal_step w error <-> exists fuel m, run_body w fuel initial = (Abrupt error, m)) /\
  forall (fuel : nat) (m : Machine),
    run_body w fuel initial = (Abrupt error, m) ->
    let t := trace (snd (run w fuel initial)) in
    fst (run w fuel initial) = Normal tt /\
    t = trace m ++ [SetFailed (failure_message error); SetOutput "success" "false"] /\
    failure_of t = Some (failure_message error) /\
    (forall message, error = ErrorInstance message -> failure_of t = Some message) /\
    outputs_of t = {[ "success" := "false" ]} /\
    outputs_of t !! "state" = None /\
    outputs_of t !! "tables-created" = None /\
    outputs_of t !! "tables-updated" = None /\
    outputs_of t !! "tables-deleted" = None.
Proof.
  split.
  - split; [apply fatal_step_throws | ].
    intros (fuel & m & Hbody). apply (run_body_throws w fuel error m Hbody).
  - intros fuel m Hbody. cbv zeta.
    destruct (run_failure w fuel error m Hbody) as (Hc & Ht & Hfail & Hout).
    destruct (run_body_throws w fuel error m Hbody) as [_ Honly].
    rewrite Honly in Hout.
    split; [exact Hc | ]. split; [exact Ht | ]. split; [exact Hfail | ].
    split; [intros message ->; exact Hfail | ].
    rewrite Hout. repeat split; reflexivity.
Qed.

Lemma fatal_failure_reports_false_witness :
  fst (run_body world_status_rejected 6 initial) = Abrupt (ErrorInstance "Rate exceeded") /\
  fatal_step world_status_rejected (ErrorInstance "Rate exceeded") /\
  failure_of (trace (snd (run world_status_rejected 6 initial))) = Some "Rate exceeded" /\
  outputs_of (trace (snd (run world_status_rejected 6 initial))) =
    {[ "success" := "false" ]}.
Proof.
  split; [reflexivity | ].
  destruct (fatal_failure_reports_false world_status_rejected
              (ErrorInstance "Rate exceeded")) as [Hiff Hrun].
  split.
  - apply Hiff. exists 6%nat, (snd (run_body world_status_rejected 6 initial)).
    reflexivity.
  - destruct (Hrun 6%nat (snd (run_body world_status_rejected 6 initial)) eq_refl)
      as (_ & _ & Hfail & _ & Hout & _).
    split; assumption.
Defined.

(** C9: when the value thrown in the [try] block is not an [Error], the
    failure signal is the fixed text "Unknown error occurred", whatever
    the value, and the success output is still false. *)
Theorem non_error_reports_unknown
    (w : World) (fuel : nat) (shown : string) (m : Machine) :
  run_body w fuel initial = (Abrupt (OtherValue shown), m) ->
  let t := trace (snd (run w fuel initial)) in
  fst (run w fuel initial) = Normal tt /\
  t = trace m ++ [SetFailed "Unknown error occurred"; SetOutput "success" "false"] /\
  failure_of t = Some "Unknown error occurred" /\
  outputs_of t !! "success" = Some "false".
Proof.
  intros Hbody. cbv zeta.
  destruct (run_failure w fuel (OtherValue shown) m Hbody) as (Hc & Ht & Hfail & Hout).
  split; [exact Hc | ]. split; [exact Ht | ]. split; [exact Hfail | ].
  rewrite Hout. apply lookup_insert_eq.
Qed.

Lemma non_error_reports_unknown_witness :
  fst (run_body world_start_throws_string 2 initial) =
    Abrupt (OtherValue "socket hang up") /\
  failure_of (trace (snd (run world_start_throws_string 2 initial))) =
    Some "Unknown error occurred" /\
  outputs_of (trace (snd (run world_start_throws_string 2 initial))) !! "success" =
    Some "false".
Proof.
  split; [reflexivity | ].
  destruct (non_error_reports_unknown world_start_throws_string 2 "socket hang up"
              (snd (run_body world_start_throws_string 2 initial)) eq_refl)
    as (_ & _ & Hfail & Hout).
  split; assumption.
Defined.

(** ** C10: a timeout that does not parse *)

Lemma nan_never_times_out (w : World) :
  timeoutMinutes w = NaN -> forall i, timed_out_at w i = false.
Proof.
  intros Hnan i. unfold timed_out_at, timeoutMs. rewrite Hnan. reflexivity.
Qed.

(** C10: when the timeout-minutes input is given and its base-10 parse
    fails, timeoutMinutes is NaN; the test of line 69 is then false at
    every iteration, the loop never leaves by the timeout, a throw of
    [run] can only come from the configuration, the start call or a status
    call, a finished wait means that some status call answered READY or was
    rejected, and with a crawler that never gets READY and status calls
    that never fail [run] does not return, however long it polls and
    whatever the clock says. *)
Theorem unparsable_timeout_never_fires (w : World) :
  input_value w "timeout-minutes" <> "" ->
  parseInt10 (input_value w "timeout-minutes") = NaN ->
  timeoutMinutes w = NaN /\
  (forall i, timed_out_at w i = false) /\
  (forall fuel k, loop_exit_from w fuel 0 <> TimedOut k) /\
  (forall fuel error m,
     run_body w fuel initial = (Abrupt error, m) ->
     (~ supplied w "crawler-name" /\
      error = ErrorInstance "Input required and not supplied: crawler-name") \/
     startCrawler w (crawlerName w) = Rejected error \/
     exists k, status_at w k = Rejected error) /\
  (supplied w "crawler-name" ->
   startCrawler w (crawlerName w) = Resolved tt ->
   waitForCompletion w = true ->
   forall fuel,
     fst (run w fuel initial) <> Pending ->
     exists k, (k < fuel)%nat /\ (ready_at w k \/ exists error, status_at w k = Rejected error)) /\
  (supplied w "crawler-name" ->
   startCrawler w (crawlerName w) = Resolved tt ->
   waitForCompletion w = true ->
   (forall i, not_ready_at w i) ->
   forall fuel,
     fst (run w fuel initial) = Pending /\
     count is_status_call (trace (snd (run w fuel initial))) = fuel /\
     failure_of (trace (snd (run w fuel initial))) = None).
Proof.
  intros Hgiven Hparse.
  assert (Hnan : timeoutMinutes w = NaN).
  { unfold timeoutMinutes, js_or.
    destruct (String.eqb_spec (input_value w "timeout-minutes") "") as [He | _];
      [contradiction | exact Hparse]. }
  pose proof (nan_never_times_out w Hnan) as Hnever.
  assert (Hexit : forall fuel k, loop_exit_from w fuel 0 <> TimedOut k).
  { intros fuel k Hx. pose proof (loop_exit_sound w fuel 0) as Hsound.
    rewrite Hx in Hsound. destruct Hsound as (_ & _ & Hout & _).
    rewrite Hnever in Hout. discriminate. }
  split; [exact Hnan | ]. split; [exact Hnever | ]. split; [exact Hexit | ].
  split; [ | split].
  - intros fuel error m Hbody.
    destruct (run_body_throws w fuel error m Hbody) as [Hstep _].
    destruct Hstep as [Hmiss He | Hs Hrej | k _ _ _ _ Hrej | k _ _ _ _ _ Hout _].
    + left. split; assumption.
    + right. left. exact Hrej.
    + right. right. exists k. exact Hrej.
    + rewrite Hnever in Hout. discriminate.
  - intros Hs Hr Hw fuel Hdone.
    destruct (run_waiting_trace w fuel Hs Hr Hw) as [Hc _]. cbv zeta in Hc.
    pose proof (loop_exit_sound w fuel 0) as Hsound.
    destruct (loop_exit_from w fuel 0) as [n | k | k e | k] eqn:Hx.
    + exfalso. apply Hdone. exact Hc.
    + destruct Hsound as (Hk & Hready & _). exists k. split; [lia | left; exact Hready].
    + destruct Hsound as (Hk & Hrej & _). exists k. split; [lia | ].
      right. exists e. exact Hrej.
    + exfalso. exact (Hexit fuel k Hx).
  - intros Hs Hr Hw Hnot fuel.
    assert (Hx : loop_exit_from w fuel 0 = StillPolling fuel).
    { apply loop_exit_pending. intros j _. split; [apply Hnot | apply Hnever]. }
    destruct (run_waiting_trace w fuel Hs Hr Hw) as [Hc _].
    destruct (run_waiting_calls w fuel Hs Hr Hw) as (_ & Hpoll & _).
    pose proof (run_waiting_failure w fuel Hs Hr Hw) as Hfail.
    cbv zeta in Hc, Hpoll, Hfail. rewrite Hx in Hc, Hpoll, Hfail.
    split; [exact Hc | ]. split; [ | exact Hfail].
    rewrite Hpoll. simpl. lia.
Qed.

Lemma unparsable_timeout_never_fires_witness :
  input_value world_bad_timeout "timeout-minutes" = "soon" /\
  parseInt10 (input_value world_bad_timeout "timeout-minutes") = NaN /\
  timed_out_at world_bad_timeout 1000 = false /\
  fst (run world_bad_timeout 1000 initial) = Pending.
Proof.
  assert (Hgiven : input_value world_bad_timeout "timeout-minutes" <> "").
  { vm_compute. discriminate. }
  assert (Hparse : parseInt10 (input_value world_bad_timeout "timeout-minutes") = NaN)
    by reflexivity.
  destruct (unparsable_timeout_never_fires world_bad_timeout Hgiven Hparse)
    as (_ & Hnever & _ & _ & _ & Hforever).
  split; [reflexivity | ]. split; [exact Hparse | ]. split; [apply Hnever | ].
  apply Hforever.
  - unfold supplied. vm_compute. discriminate.
  - reflexivity.
  - reflexivity.
  - intros i. eexists. split; reflexivity.
Defined.

(** ** C6: one start call, one terminal observation *)

(** C6, counterexample: in [world_no_name], where the crawler-name input is
    missing, the invocation issues no start call at all. *)
Lemma invocation_without_start_call : ~ every_invocation_starts_once.
Proof.
  intros Hclaim. destruct (Hclaim world_no_name 3%nat) as [Hone _].
  vm_compute in Hone. discriminate.
Qed.

Lemma metrics_trace_same (w w' : World) (name : string) :
  (forall names, getCrawlerMetrics w' names = getCrawlerMetrics w names) ->
  metrics_trace w' name = metrics_trace w name.
Proof.
  intros Hm. unfold metrics_trace. rewrite Hm. reflexivity.
Qed.

(** Up to a READY reply at poll [k], the loop reads nothing of the status
    replies that come after it. *)
Lemma poll_same (w w' : World) (k : nat) (name : string) (tm : jsnum) (st : Z)
    (tms : jsnum) (r : GetCrawlerResponse) :
  same_until k w w' ->
  getCrawler w k name = Resolved r ->
  is_ready (state_of r) = true ->
  forall (fuel : nat) (m : Machine),
    (polls m <= k)%nat ->
    poll w' fuel name tm st tms m = poll w fuel name tm st tms m.
Proof.
  intros (_ & _ & Hmetrics & Hclock & Hstatus) Hk Hready.
  induction fuel as [ | fuel IH]; intros m Hm; [reflexivity | ].
  pose proof (Hstatus (polls m) name Hm) as Hsame.
  destruct (getCrawler w (polls m) name) as [r' | e] eqn:Hreply.
  - destruct (is_ready (state_of r')) eqn:Hr'.
    + rewrite (poll_ready w' _ _ _ _ _ m r' Hsame Hr').
      rewrite (poll_ready w _ _ _ _ _ m r' Hreply Hr').
      rewrite (metrics_trace_same w w' name Hmetrics). reflexivity.
    + assert (Hlt : (polls m < k)%nat).
      { destruct (Nat.eq_dec (polls m) k) as [Heq | Hne]; [ | lia].
        rewrite Heq, Hk in Hreply. inversion Hreply; subst r'.
        rewrite Hready in Hr'. discriminate. }
      destruct (js_gt (dateNow w (ticks m) - st) tms) eqn:Hgt.
      * rewrite (poll_timed_out w' _ _ _ _ _ m r' Hsame Hr');
          [ | rewrite Hclock; exact Hgt].
        rewrite (poll_timed_out w _ _ _ _ _ m r' Hreply Hr' Hgt). reflexivity.
      * rewrite (poll_round w' _ _ _ _ _ m r' Hsame Hr');
          [ | rewrite Hclock; exact Hgt].
        rewrite (poll_round w _ _ _ _ _ m r' Hreply Hr' Hgt).
        apply IH. simpl. lia.
  - rewrite (poll_rejected w' _ _ _ _ _ m e Hsame).
    rewrite (poll_rejected w _ _ _ _ _ m e Hreply). reflexivity.
Qed.

Lemma run_same (w w' : World) (k fuel : nat) :
  same_until k w w' ->
  ready_at w k ->
  run w' fuel initial = run w fuel initial.
Proof.
  intros Hsame [r [Hk Hready]].
  pose proof Hsame as (Hin & Hstart & _ & Hclock & _).
  assert (Hbody : run_body w' fuel initial = run_body w fuel initial).
  { assert (Hread : read_inputs w' initial = read_inputs w initial).
    { unfold read_inputs, getInput. rewrite Hin. reflexivity. }
    assert (Hname : crawlerName w' = crawlerName w).
    { unfold crawlerName, input_value. rewrite Hin. reflexivity. }
    unfold run_body, bind. rewrite Hread.
    destruct (String.eqb_spec (default "" (inputs w !! "crawler-name")) "") as [He | Hfull].
    - rewrite (read_inputs_missing w initial); [reflexivity | ].
      intros Hs. apply Hs. exact He.
    - rewrite (read_inputs_supplied w initial Hfull).
      unfold orchestrate, send_StartCrawler. eff_unfold. rewrite Hstart.
      destruct (startCrawler w (crawlerName w)) as [[] | e]; eff_unfold; [ | reflexivity].
      destruct (waitForCompletion w); [ | reflexivity].
      cbn [initial]. rewrite Hclock.
      apply (poll_same w w' k (crawlerName w) _ _ _ r Hsame Hk Hready).
      simpl. lia. }
  rewrite !run_of_body, Hbody. reflexivity.
Qed.

(** The calls of any invocation that has its crawler name. *)
Lemma run_calls (w : World) (fuel : nat) :
  supplied w "crawler-name" ->
  let t := trace (snd (run w fuel initial)) in
  count is_start_call t = 1%nat /\
  (count is_metrics_call t <= 1)%nat /\
  forall k, ready_at w k -> (count is_status_call t <= S k)%nat.
Proof.
  intros Hs. cbv zeta.
  destruct (startCrawler w (crawlerName w)) as [[] | e] eqn:Hstart.
  - destruct (waitForCompletion w) eqn:Hw.
    + destruct (run_waiting_calls w fuel Hs Hstart Hw) as (Hone & Hpoll & Hmet).
      cbv zeta in Hone, Hpoll, Hmet. rewrite Hone, Hpoll, Hmet.
      pose proof (loop_exit_sound w fuel 0) as Hsound.
      split; [reflexivity | ].
      split; [destruct (loop_exit_from w fuel 0); simpl; lia | ].
      intros k [r [Hr Hready]].
      assert (Hstop : forall j, continues_at w j -> j <> k).
      { intros j [[r' [Hr' Hn]] _] ->. rewrite Hr in Hr'. inversion Hr'; subst r'.
        rewrite Hready in Hn. discriminate. }
      assert (Hbound : forall n, (forall j, (0 <= j < n)%nat -> continues_at w j) ->
                                 (n <= k)%nat).
      { intros n Hall. destruct (le_lt_dec n k) as [Hle | Hgt]; [exact Hle | ].
        exfalso. apply (Hstop k); [apply Hall; lia | reflexivity]. }
      destruct (loop_exit_from w fuel 0) as [n | k' | k' e | k']; simpl.
      * destruct Hsound as [_ Hall]. specialize (Hbound n Hall). lia.
      * destruct Hsound as (_ & _ & Hall). specialize (Hbound k' Hall). lia.
      * destruct Hsound as (_ & _ & Hall). specialize (Hbound k' Hall). lia.
      * destruct Hsound as (_ & _ & _ & Hall). specialize (Hbound k' Hall). lia.
    + rewrite run_of_body, (run_body_no_wait w fuel Hs Hstart Hw).
      cbn [snd trace]. rewrite !count_app. simpl.
      split; [reflexivity | ]. split; [lia | ]. intros k _. lia.
  - rewrite run_of_body, (run_body_start_rejected w fuel e Hs Hstart).
    cbn [snd extend trace]. rewrite !count_app. simpl.
    split; [reflexivity | ]. split; [lia | ]. intros k _. lia.
Qed.

(** C6, amended: an invocation that has its crawler name issues exactly
    one start call, whatever happens afterwards (one without it issues
    none); an invocation makes at most one metrics call; and if the [k]-th
    status reply is READY, at most [k + 1] status calls are made and the
    whole run is the same in any world that differs only in the status
    replies after the [k]-th. *)
Theorem one_start_first_ready_wins (w : World) (fuel : nat) :
  let t := trace (snd (run w fuel initial)) in
  (count is_start_call t <= 1)%nat /\
  (supplied w "crawler-name" -> count is_start_call t = 1%nat) /\
  (~ supplied w "crawler-name" -> count is_start_call t = 0%nat) /\
  (count is_metrics_call t <= 1)%nat /\
  (forall k, ready_at w k ->
     (count is_status_call t <= S k)%nat /\
     forall w', same_until k w w' -> run w' fuel initial = run w fuel initial).
Proof.
  cbv zeta.
  assert (Hindep : forall k, ready_at w k ->
            forall w', same_until k w w' -> run w' fuel initial = run w fuel initial).
  { intros k Hready w' Hsame. apply (run_same w w' k fuel Hsame Hready). }
  destruct (String.eqb_spec (default "" (inputs w !! "crawler-name")) "") as [He | Hfull].
  - assert (Hmiss : ~ supplied w "crawler-name") by (intros Hs; apply Hs; exact He).
    assert (Ht : trace (snd (run w fuel initial)) =
                 [SetFailed "Input required and not supplied: crawler-name";
                  SetOutput "success" "false"]).
    { rewrite run_of_body, (run_body_missing w fuel Hmiss). reflexivity. }
    rewrite Ht. simpl.
    split; [lia | ]. split; [intros Hs; contradiction | ].
    split; [reflexivity | ]. split; [lia | ].
    intros k Hready. split; [lia | apply Hindep; exact Hready].
  - assert (Hs : supplied w "crawler-name") by exact Hfull.
    destruct (run_calls w fuel Hs) as (Hone & Hmet & Hpoll).
    split; [lia | ]. split; [intros _; exact Hone | ].
    split; [intros Hmiss; contradiction | ]. split; [exact Hmet | ].
    intros k Hready. split; [apply Hpoll; exact Hready | apply Hindep; exact Hready].
Qed.

Lemma one_start_first_ready_wins_witness :
  supplied world_ready_second "crawler-name" /\
  ready_at world_ready_second 1 /\
  same_until 1 world_ready_second world_ready_second_then_fails /\
  count is_start_call (trace (snd (run world_ready_second 7 initial))) = 1%nat /\
  (count is_status_call (trace (snd (run world_ready_second 7 initial))) <= 2)%nat /\
  run world_ready_second_then_fails 7 initial = run world_ready_second 7 initial.
Proof.
  assert (Hs : supplied world_ready_second "crawler-name").
  { unfold supplied. vm_compute. discriminate. }
  assert (Hready : ready_at world_ready_second 1).
  { eexists. split; reflexivity. }
  assert (Hsame : same_until 1 world_ready_second world_ready_second_then_fails).
  { split; [reflexivity | ]. split; [reflexivity | ]. split; [reflexivity | ].
    split; [reflexivity | ].
    intros i name Hi. destruct i as [ | [ | i]]; [reflexivity | reflexivity | lia]. }
  destruct (one_start_first_ready_wins world_ready_second 7)
    as (_ & Hone & _ & _ & Hfirst).
  destruct (Hfirst 1%nat Hready) as [Hpoll Hindep].
  split; [exact Hs | ]. split; [exact Hready | ]. split; [exact Hsame | ].
  split; [apply Hone; exact Hs | ]. split; [exact Hpoll | ].
  apply Hindep. exact Hsame.
Defined.

(** ** What [trim] removes *)

Lemma string_app_cons (x : ascii) (a b : string) :
  String x a +:+ b = String x (a +:+ b).
Proof. reflexivity. Qed.

Lemma string_app_assoc (a b c : string) : (a +:+ b) +:+ c = a +:+ (b +:+ c).
Proof.
  induction a as [ | x a IH]; [reflexivity | ].
  rewrite !string_app_cons, IH. reflexivity.
Qed.

Lemma string_app_nil_r (a : string) : a +:+ "" = a.
Proof.
  induction a as [ | x a IH]; [reflexivity | ].
  rewrite string_app_cons, IH. reflexivity.
Qed.

Lemma rev_app_append (a : string) :
  forall b, String.rev_app a b = String.rev a +:+ b.
Proof.
  induction a as [ | x a IH]; intros b; [reflexivity | ].
  unfold String.rev. cbn [String.rev_app].
  rewrite (IH (String x b)), (IH (String x "")), string_app_assoc. reflexivity.
Qed.

Lemma rev_cons (x : ascii) (a : string) :
  String.rev (String x a) = String.rev a +:+ String x "".
Proof. unfold String.rev at 1. cbn [String.rev_app]. apply rev_app_append. Qed.

Lemma rev_append (a b : string) : String.rev (a +:+ b) = String.rev b +:+ String.rev a.
Proof.
  induction a as [ | x a IH].
  - change ("" +:+ b) with b. change (String.rev "") with "".
    rewrite string_app_nil_r. reflexivity.
  - rewrite string_app_cons, !rev_cons, IH, string_app_assoc. reflexivity.
Qed.

Lemma rev_rev (s : string) : String.rev (String.rev s) = s.
Proof.
  induction s as [ | x s IH]; [reflexivity | ].
  rewrite rev_cons, rev_append, IH. reflexivity.
Qed.

(** One white space at the front, or reversed at the front of the reversed
    string, is skipped. *)
Lemma trim_start_space (sp s : string) :
  In sp white_space -> trim_start (sp +:+ s) = trim_start s.
Proof.
  intros Hin. unfold white_space in Hin. simpl in Hin.
  repeat (destruct Hin as [<- | Hin]; [reflexivity | ]). contradiction.
Qed.

Lemma drop_end_space (sp s : string) :
  In sp white_space -> drop_end (String.rev sp +:+ s) = drop_end s.
Proof.
  intros Hin. unfold white_space in Hin. simpl in Hin.
  repeat (destruct Hin as [<- | Hin]; [reflexivity | ]). contradiction.
Qed.

(** A visible ASCII character stops both. *)
Lemma graphic_stops (a : ascii) (r : string) :
  graphic a = true ->
  trim_start (String a r) = String a r /\ drop_end (String a r) = String a r.
Proof.
  intros Hg.
  destruct a as [[ | ] [ | ] [ | ] [ | ] [ | ] [ | ] [ | ] [ | ]];
    vm_compute in Hg; try discriminate Hg; split; reflexivity.
Qed.

Lemma join_cons (sp : string) (l : list string) : join (sp :: l) = sp +:+ join l.
Proof. reflexivity. Qed.

(** One white space at the front, or reversed at the front of the reversed
    string, is skipped. *)
Lemma trim_start_spaces (lead : list string) (s : string) :
  spaces lead -> trim_start (join lead +:+ s) = trim_start s.
Proof.
  intros Hlead. induction Hlead as [ | sp lead Hsp _ IH]; [reflexivity | ].
  rewrite join_cons, string_app_assoc, (trim_start_space sp _ Hsp). exact IH.
Qed.

Lemma drop_end_spaces (trail : list string) :
  spaces trail ->
  forall s, drop_end (String.rev (join trail) +:+ s) = drop_end s.
Proof.
  intros Htrail. induction Htrail as [ | sp trail Hsp _ IH]; intros s; [reflexivity | ].
  rewrite join_cons, rev_append, string_app_assoc, IH. apply drop_end_space. exact Hsp.
Qed.

(** [trim] removes the white space around a text, and nothing of the
    text. *)
Lemma trim_surrounded (lead trail : list string) (text : string) :
  spaces lead -> spaces trail -> solid text = true ->
  trim (join lead +:+ text +:+ join trail) = text.
Proof.
  intros Hlead Htrail Hsolid. unfold solid in Hsolid.
  destruct text as [ | a r] eqn:Htext; [discriminate | ]. rewrite <- Htext in *.
  destruct (String.rev text) as [ | b r'] eqn:Hrev; [discriminate | ].
  apply andb_prop in Hsolid as [Ha Hb].
  unfold trim. rewrite (trim_start_spaces lead _ Hlead).
  assert (Hstart : trim_start (text +:+ join trail) = text +:+ join trail).
  { rewrite Htext, string_app_cons. apply graphic_stops. exact Ha. }
  rewrite Hstart. unfold trim_end.
  rewrite rev_append, (drop_end_spaces trail Htrail), Hrev.
  destruct (graphic_stops b r' Hb) as [_ Hend]. rewrite Hend, <- Hrev.
  apply rev_rev.
Qed.

(** ** C8: parsing the inputs *)

(** *** [parseInt(_, 10)] reads decimal numerals *)

Lemma digit_of_pretty_char (d : N) :
  (d < 10)%N -> digit_of (pretty_N_char d) = Some (Z.of_N d).
Proof.
  intros Hd.
  assert (Hcases : (d = 0 \/ d = 1 \/ d = 2 \/ d = 3 \/ d = 4 \/
                    d = 5 \/ d = 6 \/ d = 7 \/ d = 8 \/ d = 9)%N) by lia.
  repeat (destruct Hcases as [-> | Hcases]; [reflexivity | ]).
  subst d. reflexivity.
Qed.

(** Reading the digits that [pretty] writes for [x], in front of [s],
    shifts the accumulator and adds [x]. *)
Lemma parse_digits_pretty (x : N) :
  exists n : nat, forall (s : string) (seen : bool) (acc : Z),
    parse_digits (pretty_N_go x s) seen acc =
    parse_digits s (seen || (0 <? x)%N) (acc * 10 ^ Z.of_nat n + Z.of_N x).
Proof.
  induction (N.lt_wf_0 x) as [x _ IH].
  destruct (N.eq_dec x 0) as [-> | Hpos].
  - exists 0%nat. intros s seen acc. rewrite pretty_N_go_0.
    rewrite orb_false_r. f_equal. simpl. lia.
  - assert (Hx : (0 < x)%N) by lia.
    destruct (IH (x `div` 10)%N) as [n Hn]; [apply N.div_lt; lia | ].
    exists (S n). intros s seen acc.
    rewrite pretty_N_go_step by exact Hx. rewrite Hn.
    cbn [parse_digits]. rewrite digit_of_pretty_char by (apply N.mod_lt; lia).
    assert (Hlt : (0 <? x)%N = true) by (apply N.ltb_lt; exact Hx).
    rewrite Hlt, orb_true_r. f_equal.
    rewrite Nat2Z.inj_succ, Z.pow_succ_r by lia.
    pose proof (N.div_mod x 10) as Hdm.
    assert (Hz : Z.of_N x = 10 * Z.of_N (x `div` 10) + Z.of_N (x `mod` 10)).
    { rewrite <- (N2Z.inj_mul 10), <- N2Z.inj_add. f_equal. apply Hdm. lia. }
    rewrite Hz. ring.
Qed.

(** A numeral that [pretty] writes starts with a digit. *)
Lemma pretty_go_head (x : N) :
  (0 < x)%N ->
  forall s, exists c r d, pretty_N_go x s = String c r /\ digit_of c = Some d.
Proof.
  induction (N.lt_wf_0 x) as [x _ IH]. intros Hx s.
  rewrite pretty_N_go_step by exact Hx.
  destruct (N.eq_dec (x `div` 10) 0) as [Hq | Hq].
  - rewrite Hq, pretty_N_go_0. eexists _, _, _. split; [reflexivity | ].
    apply digit_of_pretty_char. apply N.mod_lt. lia.
  - apply IH; [apply N.div_lt; lia | apply N.neq_0_lt_0; exact Hq].
Qed.

Lemma parseInt10_digit_first (c : ascii) (r : string) (d : Z) :
  digit_of c = Some d ->
  parseInt10 (String c r) =
    match parse_digits (String c r) false 0 with
    | Some z => round_double z
    | None => NaN
    end.
Proof.
  intros Hd.
  destruct c as [[ | ] [ | ] [ | ] [ | ] [ | ] [ | ] [ | ] [ | ]];
    vm_compute in Hd; try discriminate Hd; reflexivity.
Qed.

Lemma parse_digits_numeral (p : positive) :
  parse_digits (pretty_N_go (N.pos p) "") false 0 = Some (Z.pos p).
Proof.
  destruct (parse_digits_pretty (N.pos p)) as [n Hn]. rewrite Hn. reflexivity.
Qed.

Lemma round_double_safe (z : Z) : Z.abs z <= 2 ^ 53 -> round_double z = Num z.
Proof.
  intros Hsafe. unfold round_double, safe_integer.
  destruct (Z.leb_spec (Z.abs z) (2 ^ 53)) as [_ | Hbig]; [reflexivity | lia].
Qed.

(** The base-10 reading of the decimal numeral of [z] is the double
    nearest to [z]. *)
Lemma parseInt10_pretty (z : Z) : parseInt10 (pretty z) = round_double z.
Proof.
  destruct z as [ | p | p].
  - reflexivity.
  - change (pretty (Z.pos p)) with (pretty_N_go (N.pos p) "").
    destruct (pretty_go_head (N.pos p) eq_refl "") as (c & r & d & Hs & Hd).
    pose proof (parse_digits_numeral p) as Hp.
    rewrite Hs in Hp |- *. rewrite (parseInt10_digit_first c r d Hd), Hp. reflexivity.
  - change (pretty (Z.neg p)) with (String "-" (pretty_N_go (N.pos p) "")).
    unfold parseInt10. cbn [trim_start].
    change (is_space "-") with false. change (is_lead "-") with false. cbv iota.
    rewrite parse_digits_numeral. reflexivity.
Qed.

Lemma pretty_not_empty (z : Z) : String.eqb (pretty z) "" = false.
Proof.
  destruct z as [ | p | p]; [reflexivity | | reflexivity].
  change (pretty (Z.pos p)) with (pretty_N_go (N.pos p) "").
  destruct (pretty_go_head (N.pos p) eq_refl "") as (c & r & d & Hs & _).
  rewrite Hs. reflexivity.
Qed.

(** *** The two optional inputs *)

(** On its own, [run] has no fallback for wait-for-completion: an input
    that reaches it absent reads as false.  The default belongs to the
    action's metadata. *)
Lemma wait_absent_reads_false (w : World) :
  inputs w !! "wait-for-completion" = None -> waitForCompletion w = false.
Proof.
  intros Habsent. unfold waitForCompletion, input_value. rewrite Habsent. reflexivity.
Qed.

(** On its own, [run] falls back to 60 minutes when timeout-minutes is
    absent or empty (line 9). *)
Lemma timeout_absent_reads_60 (w : World) :
  input_value w "timeout-minutes" = "" -> timeoutMinutes w = Num 60.
Proof.
  intros Hempty. unfold timeoutMinutes. rewrite Hempty. reflexivity.
Qed.

Example parseInt10_leading_zero : parseInt10 "010" = Num 10.
Proof. reflexivity. Qed.

Example parseInt10_no_hex : parseInt10 "0x1F" = Num 0.
Proof. reflexivity. Qed.

Example parseInt10_stops_at_letter : parseInt10 "12abc" = Num 12.
Proof. reflexivity. Qed.

Example parseInt10_negative : parseInt10 "-5" = Num (-5).
Proof. reflexivity. Qed.

Example parseInt10_no_digit : parseInt10 "soon" = NaN.
Proof. reflexivity. Qed.

(** C8: with the inputs the runner hands over for a step ([given], and the
    declared defaults for what it leaves out), [run] reads
    waitForCompletion as the test that the wait-for-completion value equals
    "true" (white space around it set aside), which holds when the step
    does not give that input, and reads timeoutMinutes by the base-10
    [parseInt] of the timeout-minutes value: the decimal numeral of [z] is
    read as [z] whenever [z] is at most 2^53 in magnitude (as the double
    nearest to [z] in general), and an input that is not given, or is
    empty, is read as 60. *)
Theorem input_parsing (given : gmap string string) (w : World) (m : Machine) :
  inputs w = runner_inputs given ->
  supplied w "crawler-name" ->
  exists (wait : bool) (minutes : jsnum),
    read_inputs w m = (Normal (crawlerName w, wait, minutes), m) /\
    wait = String.eqb (input_value w "wait-for-completion") "true" /\
    (wait = true <-> input_value w "wait-for-completion" = "true") /\
    (forall lead trail, spaces lead -> spaces trail ->
       inputs w !! "wait-for-completion" = Some (join lead +:+ "true" +:+ join trail) ->
       wait = true) /\
    (given !! "wait-for-completion" = None -> wait = true) /\
    minutes = parseInt10 (js_or (input_value w "timeout-minutes") "60") /\
    (forall z : Z, input_value w "timeout-minutes" = pretty z ->
       minutes = round_double z /\ (Z.abs z <= 2 ^ 53 -> minutes = Num z)) /\
    (given !! "timeout-minutes" = None -> minutes = Num 60) /\
    (input_value w "timeout-minutes" = "" -> minutes = Num 60).
Proof.
  intros Hin Hs. exists (waitForCompletion w), (timeoutMinutes w).
  split; [apply read_inputs_supplied; exact Hs | ].
  split; [reflexivity | ].
  split; [unfold waitForCompletion; apply String.eqb_eq | ].
  split.
  { intros lead trail Hlead Htrail Hgiven. unfold waitForCompletion, input_value.
    rewrite Hgiven.
    change (default "" (Some (join lead +:+ "true" +:+ join trail)))
      with (join lead +:+ "true" +:+ join trail).
    rewrite (trim_surrounded lead trail "true" Hlead Htrail eq_refl). reflexivity. }
  split.
  { intros Habsent. unfold waitForCompletion, input_value.
    rewrite Hin. unfold runner_inputs.
    rewrite (lookup_union_r given action_defaults _ Habsent). reflexivity. }
  split; [reflexivity | ].
  split.
  { intros z Hz.
    assert (Hround : timeoutMinutes w = round_double z).
    { unfold timeoutMinutes, js_or. rewrite Hz, pretty_not_empty. apply parseInt10_pretty. }
    split; [exact Hround | ].
    intros Hsafe. rewrite Hround. apply round_double_safe. exact Hsafe. }
  split.
  { intros Habsent. unfold timeoutMinutes, input_value.
    rewrite Hin. unfold runner_inputs.
    rewrite (lookup_union_r given action_defaults _ Habsent). reflexivity. }
  apply timeout_absent_reads_60.
Qed.

Lemma input_parsing_witness :
  supplied world_defaults "crawler-name" /\
  read_inputs world_defaults initial = (Normal ("events-crawler", true, Num 60), initial).
Proof.
  assert (Hs : supplied world_defaults "crawler-name").
  { unfold supplied. vm_compute. discriminate. }
  split; [exact Hs | ].
  destruct (input_parsing {[ "crawler-name" := "events-crawler" ]} world_defaults initial
              eq_refl Hs)
    as (wait & minutes & Hread & _ & _ & _ & Hwait & _ & _ & Hmin & _).
  rewrite Hread, (Hwait eq_refl), (Hmin eq_refl). reflexivity.
Defined.

(** * Further properties of [run] *)

(** ** The four courses of an invocation *)

(** An invocation stops at the inputs, stops at the start call, returns
    without waiting, or enters the polling loop. *)
Lemma run_cases (w : World) (fuel : nat) :
  (~ supplied w "crawler-name" /\
   run w fuel initial =
     (Normal tt,
      {| trace := failure_events
                    (ErrorInstance "Input required and not supplied: crawler-name");
         polls := 0; ticks := 0 |})) \/
  (supplied w "crawler-name" /\
   exists e, startCrawler w (crawlerName w) = Rejected e /\
     run w fuel initial =
       (Normal tt,
        {| trace := start_trace w ++ failure_events e; polls := 0; ticks := 0 |})) \/
  (supplied w "crawler-name" /\
   startCrawler w (crawlerName w) = Resolved tt /\
   waitForCompletion w = false /\
   run w fuel initial =
     (Normal tt,
      {| trace := start_trace w ++
                  [SetOutput "success" "true";
                   Info "Not waiting for crawler completion (wait-for-completion is false)";
                   SetOutput "state" "RUNNING"];
         polls := 0; ticks := 0 |})) \/
  (supplied w "crawler-name" /\
   startCrawler w (crawlerName w) = Resolved tt /\
   waitForCompletion w = true).
Proof.
  destruct (String.eqb_spec (default "" (inputs w !! "crawler-name")) "") as [He | Hfull].
  - left. assert (Hmiss : ~ supplied w "crawler-name") by (intros Hs; apply Hs; exact He).
    split; [exact Hmiss | ].
    rewrite run_of_body, (run_body_missing w fuel Hmiss). reflexivity.
  - right. assert (Hs : supplied w "crawler-name") by exact Hfull.
    destruct (startCrawler w (crawlerName w)) as [[] | e] eqn:Hstart.
    + right. destruct (waitForCompletion w) eqn:Hw.
      * right. repeat split; assumption || reflexivity.
      * left. split; [exact Hs | ]. split; [reflexivity | ]. split; [reflexivity | ].
        rewrite run_of_body, (run_body_no_wait w fuel Hs Hstart Hw). reflexivity.
    + left. split; [exact Hs | ]. exists e. split; [reflexivity | ].
      rewrite run_of_body, (run_body_start_rejected w fuel e Hs Hstart).
      unfold extend. cbn [trace polls ticks]. reflexivity.
Qed.

(** ** The success output and the failure signal agree *)

(** In every invocation, at every moment of its polling, [run] has not
    thrown; either it has signalled a failure, has ended, and the success
    output is false, or it has signalled none and the success output is
    true (already while it polls). *)
Theorem success_output_matches_failure_signal (w : World) (fuel : nat) :
  let t := trace (snd (run w fuel initial)) in
  (forall e, fst (run w fuel initial) <> Abrupt e) /\
  ((exists msg, failure_of t = Some msg /\
                outputs_of t = {[ "success" := "false" ]} /\
                fst (run w fuel initial) = Normal tt) \/
   (failure_of t = None /\ outputs_of t !! "success" = Some "true")).
Proof.
  cbv zeta.
  destruct (run_cases w fuel)
    as [[_ Hrun] | [(_ & e & _ & Hrun) | [(_ & _ & _ & Hrun) | (Hs & Hr & Hw)]]].
  - rewrite Hrun. cbn [fst snd trace]. split; [intros e; discriminate | ].
    left. eexists. split; [reflexivity | ]. split; reflexivity.
  - rewrite Hrun. cbn [fst snd trace]. split; [intros e'; discriminate | ].
    left. exists (failure_message e).
    rewrite failure_of_app, outputs_of_app.
    split; [reflexivity | ]. split; [vm_compute | ]; reflexivity.
  - rewrite Hrun. cbn [fst snd trace]. split; [intros e; discriminate | ].
    right. rewrite failure_of_app, outputs_of_app. split; reflexivity.
  - destruct (run_waiting_trace w fuel Hs Hr Hw) as [Hc _].
    rewrite Hc, (run_waiting_outputs w fuel Hs Hr Hw), (run_waiting_failure w fuel Hs Hr Hw).
    unfold exit_outputs, exit_failure, ready_outputs.
    destruct (loop_exit_from w fuel 0) as [n | k | k e | k]; cbn [exit_outcome exit_completion].
    + split; [intros e; discriminate | ]. right. split; reflexivity.
    + split; [intros e; discriminate | ]. right.
      destruct (reported_metrics w) as [[c u] d]. split; reflexivity.
    + split; [intros e'; discriminate | ]. left. eexists. repeat split; reflexivity.
    + split; [intros e; discriminate | ]. left. eexists. repeat split; reflexivity.
Qed.

(** ** The state output *)

(** The state output is never the state of a crawler that is still at
    work: it is unset, or the synthetic RUNNING of an invocation that does
    not wait, or READY; and it is READY exactly when the metrics call was
    made. *)
Theorem state_output_is_running_or_ready (w : World) (fuel : nat) :
  let t := trace (snd (run w fuel initial)) in
  (outputs_of t !! "state" = None \/
   (outputs_of t !! "state" = Some "RUNNING" /\ waitForCompletion w = false) \/
   (outputs_of t !! "state" = Some "READY" /\ waitForCompletion w = true)) /\
  (outputs_of t !! "state" = Some "READY" <-> count is_metrics_call t = 1%nat).
Proof.
  cbv zeta.
  destruct (run_cases w fuel)
    as [[_ Hrun] | [(_ & e & _ & Hrun) | [(_ & _ & Hw & Hrun) | (Hs & Hr & Hw)]]].
  - rewrite Hrun. cbn [fst snd trace]. split; [left; reflexivity | ].
    split; intros H; vm_compute in H; discriminate.
  - rewrite Hrun. cbn [fst snd trace]. rewrite outputs_of_app, count_app.
    assert (Hz : count is_metrics_call (start_trace w) = 0%nat) by reflexivity.
    rewrite Hz. cbn [foldl failure_events record_output].
    assert (Hnone : <["success":="false"]> (outputs_of (start_trace w)) !! "state" = None)
      by reflexivity.
    rewrite Hnone. split; [left; reflexivity | ].
    split; intros H; simpl in H; discriminate.
  - rewrite Hrun. cbn [fst snd trace]. rewrite outputs_of_app, count_app.
    assert (Hz : count is_metrics_call (start_trace w) = 0%nat) by reflexivity.
    rewrite Hz.
    assert (Hrunning : foldl record_output (outputs_of (start_trace w))
              [SetOutput "success" "true";
               Info "Not waiting for crawler completion (wait-for-completion is false)";
               SetOutput "state" "RUNNING"] !! "state" = Some "RUNNING") by reflexivity.
    rewrite Hrunning. split; [right; left; split; [reflexivity | exact Hw] | ].
    split; intros H; simpl in H; discriminate.
  - destruct (run_waiting_calls w fuel Hs Hr Hw) as (_ & _ & Hmet).
    rewrite Hmet, (run_waiting_outputs w fuel Hs Hr Hw).
    unfold exit_outputs, ready_outputs.
    destruct (loop_exit_from w fuel 0) as [n | k | k e | k]; cbn [metrics_calls].
    + split; [left; reflexivity | ]. split; intros H; vm_compute in H; discriminate.
    + destruct (reported_metrics w) as [[c u] d].
      assert (Hready : <["tables-deleted":=d]> (<["tables-updated":=u]>
                (<["tables-created":=c]> (<["state":="READY"]>
                   ({[ "success" := "true" ]} : gmap string string)))) !! "state"
              = Some "READY") by reflexivity.
      rewrite Hready. split; [right; right; split; [reflexivity | exact Hw] | ].
      split; intros _; reflexivity.
    + split; [left; reflexivity | ]. split; intros H; vm_compute in H; discriminate.
    + split; [left; reflexivity | ]. split; intros H; vm_compute in H; discriminate.
Qed.

(** ** More on the trace of the loop *)

(** Events that are neither suspensions nor part of the metrics branch are
    counted in the loop's trace only through that branch. *)
Lemma loop_trace_quiet (w : World) (p : event -> bool) :
  (forall name, p (GetCrawlerCall name) = false) ->
  (forall msg, p (Info msg) = false) ->
  (forall ms, p (Sleep ms) = false) ->
  p (SetOutput "state" "READY") = false ->
  forall fuel i : nat,
    count p (loop_trace_from w fuel i) =
    match loop_exit_from w fuel i with
    | SawReady _ => count p (metrics_trace w (crawlerName w))
    | _ => 0%nat
    end.
Proof.
  intros Hcall Hinfo Hsleep Hstate.
  induction fuel as [ | fuel IH]; intros i; cbn [loop_exit_from loop_trace_from].
  - reflexivity.
  - destruct (status_at w i) as [r | e].
    + destruct (is_ready (state_of r)).
      * cbn [app count]. rewrite count_app, Hcall, Hinfo, Hstate. simpl.
        rewrite Hinfo. lia.
      * destruct (timed_out_at w i).
        -- cbn [count]. rewrite Hcall, Hinfo. reflexivity.
        -- cbn [app count]. rewrite Hcall, Hinfo, Hsleep. simpl. apply IH.
    + cbn [count]. rewrite Hcall. reflexivity.
Qed.

Lemma loop_trace_sleeps (w : World) (fuel : nat) :
  forall i : nat,
    count is_sleep (loop_trace_from w fuel i) = sleeps (loop_exit_from w fuel i) i.
Proof.
  induction fuel as [ | fuel IH]; intros i; cbn [loop_exit_from loop_trace_from].
  - simpl. lia.
  - destruct (status_at w i) as [r | e].
    + destruct (is_ready (state_of r)).
      * cbn [app count is_sleep]. rewrite count_app.
        assert (Hm : count is_sleep (metrics_trace w (crawlerName w)) = 0%nat).
        { unfold metrics_trace.
          destruct (getCrawlerMetrics w [crawlerName w]); reflexivity. }
        rewrite Hm. simpl. lia.
      * destruct (timed_out_at w i).
        -- simpl. lia.
        -- pose proof (loop_exit_sound w fuel (S i)) as Hx.
           cbn [app count is_sleep]. rewrite IH.
           destruct (loop_exit_from w fuel (S i)); simpl in *; lia.
    + simpl. lia.
Qed.

(** What holds of each kind of event of the loop holds of its trace. *)
Lemma loop_trace_all (w : World) (P : event -> Prop) :
  P (GetCrawlerCall (crawlerName w)) ->
  (forall msg, P (Info msg)) ->
  P (Sleep 10000) ->
  P (SetOutput "state" "READY") ->
  Forall P (metrics_trace w (crawlerName w)) ->
  forall fuel i : nat, Forall P (loop_trace_from w fuel i).
Proof.
  intros Hcall Hinfo Hsleep Hstate Hmetrics.
  induction fuel as [ | fuel IH]; intros i; cbn [loop_trace_from].
  - constructor.
  - destruct (status_at w i) as [r | e].
    + destruct (is_ready (state_of r)).
      * cbn [app]. repeat (constructor; [assumption || apply Hinfo | ]).
        apply Forall_app. split; [exact Hmetrics | ].
        constructor; [apply Hinfo | constructor].
      * destruct (timed_out_at w i).
        -- repeat (constructor; [assumption || apply Hinfo | ]). constructor.
        -- cbn [app]. repeat (constructor; [assumption || apply Hinfo | ]). apply IH.
    + constructor; [exact Hcall | constructor].
Qed.

(** The clock is read once before the loop and once in each iteration that
    does not see READY and is not rejected. *)
Lemma poll_ticks (w : World) (fuel : nat) :
  forall (i : nat) (m : Machine),
    polls m = i -> ticks m = S i ->
    ticks (snd (poll w fuel (crawlerName w) (timeoutMinutes w) (dateNow w 0)
                  (timeoutMs w) m)) =
    clock_readings (loop_exit_from w fuel i).
Proof.
  induction fuel as [ | fuel IH]; intros i m Hp Ht.
  - simpl. exact Ht.
  - cbn [loop_exit_from]. unfold status_at.
    destruct (getCrawler w i (crawlerName w)) as [r | e] eqn:Hreply.
    + destruct (is_ready (state_of r)) eqn:Hready.
      * rewrite (poll_ready _ _ _ _ _ _ m r); [ | rewrite Hp; exact Hreply | exact Hready].
        simpl. lia.
      * destruct (timed_out_at w i) eqn:Hout.
        -- rewrite (poll_timed_out _ _ _ _ _ _ m r);
             [ | rewrite Hp; exact Hreply | exact Hready | rewrite Ht; exact Hout].
           simpl. lia.
        -- rewrite (poll_round _ _ _ _ _ _ m r);
             [ | rewrite Hp; exact Hreply | exact Hready | rewrite Ht; exact Hout].
           apply IH; simpl; lia.
    + rewrite (poll_rejected _ _ _ _ _ _ m e); [ | rewrite Hp; exact Hreply].
      simpl. lia.
Qed.

(** ** Ten seconds between two status calls *)

Lemma run_waiting_sleeps (w : World) (fuel : nat) :
  supplied w "crawler-name" ->
  startCrawler w (crawlerName w) = Resolved tt ->
  waitForCompletion w = true ->
  count is_sleep (trace (snd (run w fuel initial))) = sleeps (loop_exit_from w fuel 0) 0.
Proof.
  intros Hs Hr Hw. destruct (run_waiting_trace w fuel Hs Hr Hw) as [_ Ht].
  rewrite Ht, !count_app, loop_trace_sleeps.
  assert (Hz : count is_sleep (trace (loop_entry w)) = 0%nat) by reflexivity.
  assert (Hev : count is_sleep (exit_events w (loop_exit_from w fuel 0)) = 0%nat).
  { unfold exit_events. destruct (exit_completion w (loop_exit_from w fuel 0));
      reflexivity. }
  rewrite Hz, Hev. lia.
Qed.

(** In every invocation each suspension lasts ten seconds, and there is
    exactly one between two consecutive status calls: while [run] polls it
    has slept as often as it has asked, and once it has ended it has slept
    once less than it has asked (or has not asked at all). *)
Theorem one_sleep_between_polls (w : World) (fuel : nat) :
  let t := trace (snd (run w fuel initial)) in
  Forall ten_second_sleep t /\
  (fst (run w fuel initial) = Pending ->
   count is_sleep t = fuel /\ count is_status_call t = fuel) /\
  (fst (run w fuel initial) = Normal tt ->
   (count is_status_call t = 0%nat /\ count is_sleep t = 0%nat) \/
   count is_status_call t = S (count is_sleep t)).
Proof.
  cbv zeta.
  destruct (run_cases w fuel)
    as [[_ Hrun] | [(_ & e & _ & Hrun) | [(_ & _ & _ & Hrun) | (Hs & Hr & Hw)]]].
  - rewrite Hrun. cbn [fst snd trace failure_events].
    split; [repeat constructor | ]. split; [discriminate | ].
    intros _. left. split; reflexivity.
  - rewrite Hrun. cbn [fst snd trace failure_events start_trace app].
    split; [repeat constructor | ]. split; [discriminate | ].
    intros _. left. split; reflexivity.
  - rewrite Hrun. cbn [fst snd trace start_trace app].
    split; [repeat constructor | ]. split; [discriminate | ].
    intros _. left. split; reflexivity.
  - destruct (run_waiting_trace w fuel Hs Hr Hw) as [Hc Ht].
    destruct (run_waiting_calls w fuel Hs Hr Hw) as (_ & Hpoll & _).
    pose proof (loop_exit_sound w fuel 0) as Hsound.
    pose proof (run_waiting_sleeps w fuel Hs Hr Hw) as Hsl.
    rewrite Hc, Hpoll, Hsl. split.
    + rewrite Ht. apply Forall_app. split; [repeat constructor | ].
      apply Forall_app. split.
      * apply loop_trace_all; try exact I; [intros msg; exact I | reflexivity | ].
        unfold metrics_trace. destruct (getCrawlerMetrics w [crawlerName w]);
          repeat constructor.
      * unfold exit_events. destruct (exit_completion w (loop_exit_from w fuel 0));
          repeat constructor.
    + destruct (loop_exit_from w fuel 0) as [n | k | k e | k];
        cbn [exit_outcome sleeps status_calls].
      * destruct Hsound as [Hn _]. split; [intros _; split; lia | discriminate].
      * split; [discriminate | intros _; right; lia].
      * split; [discriminate | intros _; right; lia].
      * split; [discriminate | intros _; right; lia].
Qed.

Lemma one_sleep_between_polls_witness :
  fst (run world_bad_timeout 5 initial) = Pending /\
  count is_sleep (trace (snd (run world_bad_timeout 5 initial))) = 5%nat /\
  count is_status_call (trace (snd (run world_bad_timeout 5 initial))) = 5%nat /\
  fst (run world_never_ready 9 initial) = Normal tt /\
  count is_status_call (trace (snd (run world_never_ready 9 initial))) =
    S (count is_sleep (trace (snd (run world_never_ready 9 initial)))).
Proof.
  destruct (one_sleep_between_polls world_bad_timeout 5) as (_ & Hpending & _).
  destruct (one_sleep_between_polls world_never_ready 9) as (_ & _ & Hdone).
  assert (Hp : fst (run world_bad_timeout 5 initial) = Pending) by reflexivity.
  assert (Hn : fst (run world_never_ready 9 initial) = Normal tt) by reflexivity.
  destruct (Hpending Hp) as [Hsl Hpoll].
  split; [exact Hp | ]. split; [exact Hsl | ]. split; [exact Hpoll | ].
  split; [exact Hn | ].
  destruct (Hdone Hn) as [[Hzero _] | Hone]; [ | exact Hone].
  vm_compute in Hzero. discriminate Hzero.
Defined.

(** ** Every remote call names the crawler of the inputs *)

(** The remote calls of an invocation carry the name that [getInput]
    returned. *)
Lemma run_carries (w : World) (fuel : nat) :
  Forall (carries (crawlerName w)) (trace (snd (run w fuel initial))).
Proof.
  destruct (run_cases w fuel)
    as [[_ Hrun] | [(_ & e & _ & Hrun) | [(_ & _ & _ & Hrun) | (Hs & Hr & Hw)]]].
  - rewrite Hrun. cbn [snd trace failure_events]. repeat constructor.
  - rewrite Hrun. cbn [snd trace failure_events start_trace app]. repeat constructor.
  - rewrite Hrun. cbn [snd trace start_trace app]. repeat constructor.
  - destruct (run_waiting_trace w fuel Hs Hr Hw) as [_ Ht]. rewrite Ht.
    apply Forall_app. split; [repeat constructor | ].
    apply Forall_app. split.
    + apply loop_trace_all; try exact I; [reflexivity | intros msg; exact I | ].
      unfold metrics_trace. destruct (getCrawlerMetrics w [crawlerName w]);
        repeat constructor.
    + unfold exit_events. destruct (exit_completion w (loop_exit_from w fuel 0));
        repeat constructor.
Qed.

(** In every invocation, the start call, each status call and the metrics
    call carry the crawler-name input with the white space around it
    removed, and nothing else; and when that input is a name that begins
    and ends with a visible ASCII character, wrapped in any white space
    ([trim] removes the ASCII one and the Unicode one alike), every call
    carries the bare name. *)
Theorem calls_name_the_crawler (w : World) (fuel : nat) :
  Forall (carries (crawlerName w)) (trace (snd (run w fuel initial))) /\
  (forall (lead trail : list string) (name : string),
     spaces lead ->
     spaces trail ->
     solid name = true ->
     inputs w !! "crawler-name" = Some (join lead +:+ name +:+ join trail) ->
     crawlerName w = name /\
     Forall (carries name) (trace (snd (run w fuel initial)))).
Proof.
  split; [apply run_carries | ].
  intros lead trail name Hlead Htrail Hsolid Hinput.
  assert (Hname : crawlerName w = name).
  { unfold crawlerName, input_value. rewrite Hinput.
    change (default "" (Some (join lead +:+ name +:+ join trail)))
      with (join lead +:+ name +:+ join trail).
    apply trim_surrounded; assumption. }
  split; [exact Hname | ]. rewrite <- Hname. apply run_carries.
Qed.

Lemma calls_name_the_crawler_witness :
  inputs world_wrapped_name !! "crawler-name" =
    Some (join [bytes [194; 160]%nat] +:+ "events-crawler" +:+
          join [bytes [32]%nat; bytes [9]%nat]) /\
  crawlerName world_wrapped_name = "events-crawler" /\
  In (StartCrawlerCall "events-crawler") (trace (snd (run world_wrapped_name 3 initial))) /\
  Forall (carries "events-crawler") (trace (snd (run world_wrapped_name 3 initial))).
Proof.
  assert (Hinput : inputs world_wrapped_name !! "crawler-name" =
    Some (join [bytes [194; 160]%nat] +:+ "events-crawler" +:+
          join [bytes [32]%nat; bytes [9]%nat])) by reflexivity.
  assert (Hlead : spaces [bytes [194; 160]%nat]).
  { constructor; [ | constructor]. unfold white_space. simpl. tauto. }
  assert (Htrail : spaces [bytes [32]%nat; bytes [9]%nat]).
  { constructor; [ | constructor; [ | constructor]]; unfold white_space; simpl; tauto. }
  destruct (calls_name_the_crawler world_wrapped_name 3) as [_ Hwrapped].
  destruct (Hwrapped _ _ "events-crawler" Hlead Htrail eq_refl Hinput) as [Hname Hall].
  split; [exact Hinput | ]. split; [exact Hname | ]. split; [ | exact Hall].
  vm_compute. right. left. reflexivity.
Defined.

(** ** A numeric bound ends the wait *)

(** With a bound of [n] minutes that parses, if the clock read at poll [k]
    is more than [n * 60 * 1000] milliseconds after the start, [run] has
    ended by then, whatever the service answers: it makes at most [k + 1]
    status calls and sleeps at most [k] times. *)
Theorem numeric_timeout_bounds_wait (w : World) (n : Z) (k fuel : nat) :
  timeoutMinutes w = Num n ->
  n * 60 * 1000 < elapsed_at w k ->
  (k < fuel)%nat ->
  let t := trace (snd (run w fuel initial)) in
  fst (run w fuel initial) = Normal tt /\
  (count is_status_call t <= S k)%nat /\
  (count is_sleep t <= k)%nat.
Proof.
  intros Hn Hlate Hfuel. cbv zeta.
  assert (Hout : timed_out_at w k = true).
  { unfold timed_out_at, timeoutMs. rewrite Hn. simpl. apply Z.ltb_lt. exact Hlate. }
  destruct (run_cases w fuel)
    as [[_ Hrun] | [(_ & e & _ & Hrun) | [(_ & _ & _ & Hrun) | (Hs & Hr & Hw)]]].
  - rewrite Hrun. cbn [fst snd trace failure_events]. simpl. repeat split; lia.
  - rewrite Hrun. cbn [fst snd trace]. rewrite !count_app. simpl. repeat split; lia.
  - rewrite Hrun. cbn [fst snd trace]. rewrite !count_app. simpl. repeat split; lia.
  - destruct (run_waiting_trace w fuel Hs Hr Hw) as [Hc _].
    destruct (run_waiting_calls w fuel Hs Hr Hw) as (_ & Hpoll & _).
    pose proof (run_waiting_sleeps w fuel Hs Hr Hw) as Hsl.
    rewrite Hc, Hpoll, Hsl.
    pose proof (loop_exit_sound w fuel 0) as Hsound.
    assert (Hbound : forall j, (forall i, (0 <= i < j)%nat -> continues_at w i) ->
                               (j <= k)%nat).
    { intros j Hall. destruct (le_lt_dec j k) as [Hle | Hgt]; [exact Hle | ].
      exfalso. destruct (Hall k) as [_ Hno]; [lia | ].
      rewrite Hout in Hno. discriminate. }
    destruct (loop_exit_from w fuel 0) as [j | j | j e | j];
      cbn [exit_outcome status_calls sleeps].
    + destruct Hsound as [Hj Hall]. specialize (Hbound j Hall). lia.
    + destruct Hsound as (_ & _ & Hall). specialize (Hbound j Hall).
      split; [reflexivity | lia].
    + destruct Hsound as (_ & _ & Hall). specialize (Hbound j Hall).
      split; [reflexivity | lia].
    + destruct Hsound as (_ & _ & _ & Hall). specialize (Hbound j Hall).
      split; [reflexivity | lia].
Qed.

Lemma numeric_timeout_bounds_wait_witness :
  timeoutMinutes world_never_ready = Num 1 /\
  1 * 60 * 1000 < elapsed_at world_never_ready 6 /\
  fst (run world_never_ready 7 initial) = Normal tt /\
  (count is_status_call (trace (snd (run world_never_ready 7 initial))) <= 7)%nat.
Proof.
  assert (Hn : timeoutMinutes world_never_ready = Num 1) by reflexivity.
  assert (Hlate : 1 * 60 * 1000 < elapsed_at world_never_ready 6).
  { vm_compute. reflexivity. }
  destruct (numeric_timeout_bounds_wait world_never_ready 1 6 7 Hn Hlate)
    as (Hc & Hpoll & _); [lia | ].
  split; [exact Hn | ]. split; [exact Hlate | ]. split; [exact Hc | exact Hpoll].
Defined.

(** ** Reaching READY *)

Lemma js_opt_num_or_shown (x : option Z) : js_opt_num_or x "0" = shown_count x.
Proof.
  destruct x as [z | ]; [ | reflexivity].
  unfold js_opt_num_or, js_or, shown_count. rewrite pretty_not_empty. reflexivity.
Qed.

(** What [run] leaves behind when poll [k] is the first to see READY. *)
Lemma run_ready (w : World) (fuel k : nat) :
  supplied w "crawler-name" ->
  startCrawler w (crawlerName w) = Resolved tt ->
  waitForCompletion w = true ->
  (forall j, (j < k)%nat -> continues_at w j) ->
  ready_at w k ->
  (k < fuel)%nat ->
  let t := trace (snd (run w fuel initial)) in
  fst (run w fuel initial) = Normal tt /\
  failure_of t = None /\
  outputs_of t = ready_outputs w {[ "success" := "true" ]} /\
  count is_warning t = count is_warning (metrics_trace w (crawlerName w)) /\
  count is_status_call t = S k /\
  count is_sleep t = k /\
  ticks (snd (run w fuel initial)) = S k.
Proof.
  intros Hs Hr Hw Hbefore Hready Hfuel. cbv zeta.
  assert (Hx : loop_exit_from w fuel 0 = SawReady k).
  { apply loop_exit_ready; assumption. }
  destruct (run_waiting_trace w fuel Hs Hr Hw) as [Hc Ht].
  destruct (run_waiting_calls w fuel Hs Hr Hw) as (_ & Hpoll & _).
  pose proof (run_waiting_outputs w fuel Hs Hr Hw) as Hout.
  pose proof (run_waiting_failure w fuel Hs Hr Hw) as Hfail.
  pose proof (run_waiting_sleeps w fuel Hs Hr Hw) as Hsl.
  rewrite Hx in Hc, Hpoll, Hout, Hfail, Hsl, Ht.
  split; [exact Hc | ]. split; [exact Hfail | ]. split; [exact Hout | ].
  split; [ | split; [rewrite Hpoll; simpl; lia | split; [rewrite Hsl; simpl; lia | ]]].
  - rewrite Ht, !count_app.
    rewrite (loop_trace_quiet w is_warning) by (intros; reflexivity). rewrite Hx.
    assert (Hz : count is_warning (trace (loop_entry w)) = 0%nat) by reflexivity.
    rewrite Hz. simpl. lia.
  - rewrite run_of_body, (run_body_wait w fuel Hs Hr Hw).
    pose proof (poll_ticks w fuel 0 (loop_entry w) eq_refl eq_refl) as Hticks.
    destruct (poll_from w fuel 0 (loop_entry w) eq_refl eq_refl) as [Hfst _].
    cbv zeta in Hfst. rewrite Hx in Hticks, Hfst.
    destruct (poll w fuel (crawlerName w) (timeoutMinutes w) (dateNow w 0)
                (timeoutMs w) (loop_entry w)) as [c m'].
    cbn [fst snd] in Hfst, Hticks. rewrite Hfst. exact Hticks.
Qed.

(** When poll [k] is the first to see READY and the metrics call answers
    with a list, the three metric outputs are the decimal numerals of the
    counts of its first entry, "0" for a count that the entry lacks; the
    entries after the first are not read; no warning is logged and the
    step succeeds. *)
Theorem ready_reports_first_entry
    (w : World) (fuel k : nat) (entry : CrawlerMetrics) (others : list CrawlerMetrics) :
  supplied w "crawler-name" ->
  startCrawler w (crawlerName w) = Resolved tt ->
  waitForCompletion w = true ->
  (forall j, (j < k)%nat -> continues_at w j) ->
  ready_at w k ->
  getCrawlerMetrics w [crawlerName w] =
    Resolved {| CrawlerMetricsList := Some (entry :: others) |} ->
  (k < fuel)%nat ->
  let t := trace (snd (run w fuel initial)) in
  fst (run w fuel initial) = Normal tt /\
  failure_of t = None /\
  count is_warning t = 0%nat /\
  outputs_of t =
    {[ "success" := "true"; "state" := "READY";
       "tables-created" := shown_count (TablesCreated entry);
       "tables-updated" := shown_count (TablesUpdated entry);
       "tables-deleted" := shown_count (TablesDeleted entry) ]}.
Proof.
  intros Hs Hr Hw Hbefore Hready Hmetrics Hfuel. cbv zeta.
  destruct (run_ready w fuel k Hs Hr Hw Hbefore Hready Hfuel)
    as (Hc & Hfail & Hout & Hwarn & _).
  split; [exact Hc | ]. split; [exact Hfail | ]. split.
  - rewrite Hwarn. unfold metrics_trace. rewrite Hmetrics. reflexivity.
  - rewrite Hout. unfold ready_outputs, reported_metrics. rewrite Hmetrics.
    cbn [CrawlerMetricsList mbind option_bind head]. rewrite !js_opt_num_or_shown.
    vm_compute. reflexivity.
Qed.

Lemma ready_reports_first_entry_witness :
  supplied world_with_metrics "crawler-name" /\
  waitForCompletion world_with_metrics = true /\
  ready_at world_with_metrics 1 /\
  outputs_of (trace (snd (run world_with_metrics 5 initial))) =
    {[ "success" := "true"; "state" := "READY"; "tables-created" := "2";
       "tables-updated" := "0"; "tables-deleted" := "1" ]}.
Proof.
  assert (Hs : supplied world_with_metrics "crawler-name").
  { unfold supplied. vm_compute. discriminate. }
  assert (Hw : waitForCompletion world_with_metrics = true) by reflexivity.
  assert (Hready : ready_at world_with_metrics 1).
  { eexists. split; reflexivity. }
  assert (Hbefore : forall j, (j < 1)%nat -> continues_at world_with_metrics j).
  { intros j Hj. destruct j as [ | j]; [ | lia].
    split; [eexists; split; reflexivity | reflexivity]. }
  destruct (ready_reports_first_entry world_with_metrics 5 1 _ _
              Hs eq_refl Hw Hbefore Hready eq_refl) as (_ & _ & _ & Hout); [lia | ].
  split; [exact Hs | ]. split; [exact Hw | ]. split; [exact Hready | exact Hout].
Defined.

(** When poll [k] is the first to see READY and the metrics call answers
    without a list, or with an empty one, the three metric outputs are "0",
    as after a failed metrics call, but no warning is logged. *)
Theorem ready_without_entry_reports_zero
    (w : World) (fuel k : nat) (metricsResponse : GetCrawlerMetricsResponse) :
  supplied w "crawler-name" ->
  startCrawler w (crawlerName w) = Resolved tt ->
  waitForCompletion w = true ->
  (forall j, (j < k)%nat -> continues_at w j) ->
  ready_at w k ->
  getCrawlerMetrics w [crawlerName w] = Resolved metricsResponse ->
  CrawlerMetricsList metricsResponse = None \/ CrawlerMetricsList metricsResponse = Some [] ->
  (k < fuel)%nat ->
  let t := trace (snd (run w fuel initial)) in
  fst (run w fuel initial) = Normal tt /\
  failure_of t = None /\
  count is_warning t = 0%nat /\
  outputs_of t =
    {[ "success" := "true"; "state" := "READY"; "tables-created" := "0";
       "tables-updated" := "0"; "tables-deleted" := "0" ]}.
Proof.
  intros Hs Hr Hw Hbefore Hready Hmetrics Hlist Hfuel. cbv zeta.
  destruct (run_ready w fuel k Hs Hr Hw Hbefore Hready Hfuel)
    as (Hc & Hfail & Hout & Hwarn & _).
  split; [exact Hc | ]. split; [exact Hfail | ]. split.
  - rewrite Hwarn. unfold metrics_trace. rewrite Hmetrics. reflexivity.
  - rewrite Hout. unfold ready_outputs, reported_metrics. rewrite Hmetrics.
    destruct Hlist as [-> | ->]; vm_compute; reflexivity.
Qed.

Lemma ready_without_entry_reports_zero_witness :
  supplied world_empty_metrics "crawler-name" /\
  waitForCompletion world_empty_metrics = true /\
  ready_at world_empty_metrics 0 /\
  count is_warning (trace (snd (run world_empty_metrics 3 initial))) = 0%nat /\
  outputs_of (trace (snd (run world_empty_metrics 3 initial))) =
    {[ "success" := "true"; "state" := "READY"; "tables-created" := "0";
       "tables-updated" := "0"; "tables-deleted" := "0" ]}.
Proof.
  assert (Hs : supplied world_empty_metrics "crawler-name").
  { unfold supplied. vm_compute. discriminate. }
  assert (Hw : waitForCompletion world_empty_metrics = true) by reflexivity.
  assert (Hready : ready_at world_empty_metrics 0).
  { eexists. split; reflexivity. }
  destruct (ready_without_entry_reports_zero world_empty_metrics 3 0
              {| CrawlerMetricsList := Some [] |} Hs eq_refl Hw
              ltac:(intros j Hj; lia) Hready eq_refl (or_intror eq_refl))
    as (_ & _ & Hwarn & Hout); [lia | ].
  split; [exact Hs | ]. split; [exact Hw | ]. split; [exact Hready | ].
  split; [exact Hwarn | exact Hout].
Defined.

(** ** READY ends the wait, however late *)

(** Up to a READY reply at poll [k], the loop reads the clock at most [k]
    times after the reading of line 29, and no status reply after the
    [k]-th. *)
Lemma poll_same_up_to (w w' : World) (k : nat) (name : string) (tm : jsnum) (st : Z)
    (tms : jsnum) (r : GetCrawlerResponse) :
  same_up_to k w w' ->
  getCrawler w k name = Resolved r ->
  is_ready (state_of r) = true ->
  forall (fuel : nat) (m : Machine),
    (polls m <= k)%nat ->
    ticks m = S (polls m) ->
    poll w' fuel name tm st tms m = poll w fuel name tm st tms m.
Proof.
  intros (_ & _ & Hmetrics & Hclock & Hstatus) Hk Hready.
  induction fuel as [ | fuel IH]; intros m Hm Hticks; [reflexivity | ].
  pose proof (Hstatus (polls m) name Hm) as Hsame.
  destruct (getCrawler w (polls m) name) as [r' | e] eqn:Hreply.
  - destruct (is_ready (state_of r')) eqn:Hr'.
    + rewrite (poll_ready w' _ _ _ _ _ m r' Hsame Hr').
      rewrite (poll_ready w _ _ _ _ _ m r' Hreply Hr').
      rewrite (metrics_trace_same w w' name Hmetrics). reflexivity.
    + assert (Hlt : (polls m < k)%nat).
      { destruct (Nat.eq_dec (polls m) k) as [Heq | Hne]; [ | lia].
        rewrite Heq, Hk in Hreply. inversion Hreply; subst r'.
        rewrite Hready in Hr'. discriminate. }
      assert (Hnow : dateNow w' (ticks m) = dateNow w (ticks m)).
      { apply Hclock. lia. }
      destruct (js_gt (dateNow w (ticks m) - st) tms) eqn:Hgt.
      * rewrite (poll_timed_out w' _ _ _ _ _ m r' Hsame Hr');
          [ | rewrite Hnow; exact Hgt].
        rewrite (poll_timed_out w _ _ _ _ _ m r' Hreply Hr' Hgt). reflexivity.
      * rewrite (poll_round w' _ _ _ _ _ m r' Hsame Hr');
          [ | rewrite Hnow; exact Hgt].
        rewrite (poll_round w _ _ _ _ _ m r' Hreply Hr' Hgt).
        apply IH; simpl; lia.
  - rewrite (poll_rejected w' _ _ _ _ _ m e Hsame).
    rewrite (poll_rejected w _ _ _ _ _ m e Hreply). reflexivity.
Qed.

Lemma run_same_up_to (w w' : World) (k fuel : nat) :
  same_up_to k w w' ->
  ready_at w k ->
  run w' fuel initial = run w fuel initial.
Proof.
  intros Hsame [r [Hk Hready]].
  pose proof Hsame as (Hin & Hstart & _ & Hclock & _).
  assert (Hbody : run_body w' fuel initial = run_body w fuel initial).
  { assert (Hread : read_inputs w' initial = read_inputs w initial).
    { unfold read_inputs, getInput. rewrite Hin. reflexivity. }
    unfold run_body, bind. rewrite Hread.
    destruct (String.eqb_spec (default "" (inputs w !! "crawler-name")) "") as [He | Hfull].
    - rewrite (read_inputs_missing w initial); [reflexivity | ].
      intros Hs. apply Hs. exact He.
    - rewrite (read_inputs_supplied w initial Hfull).
      unfold orchestrate, send_StartCrawler. eff_unfold. rewrite Hstart.
      destruct (startCrawler w (crawlerName w)) as [[] | e]; eff_unfold; [ | reflexivity].
      destruct (waitForCompletion w); [ | reflexivity].
      cbn [initial]. rewrite (Hclock 0%nat) by lia.
      apply (poll_same_up_to w w' k (crawlerName w) _ _ _ r Hsame Hk Hready);
        simpl; lia. }
  rewrite !run_of_body, Hbody. reflexivity.
Qed.

(** When poll [k] is the first to see READY, [run] succeeds with the state
    output READY whatever the time: the clock is not read at that poll
    ([k + 1] readings in all, one before the loop and one at each earlier
    poll), so a READY seen after the bound has passed is still a success;
    and the whole run is the same in any world that differs only in later
    clock readings and later status replies. *)
Theorem ready_wins_over_timeout (w : World) (fuel k : nat) :
  supplied w "crawler-name" ->
  startCrawler w (crawlerName w) = Resolved tt ->
  waitForCompletion w = true ->
  (forall j, (j < k)%nat -> continues_at w j) ->
  ready_at w k ->
  (k < fuel)%nat ->
  let t := trace (snd (run w fuel initial)) in
  fst (run w fuel initial) = Normal tt /\
  failure_of t = None /\
  outputs_of t !! "success" = Some "true" /\
  outputs_of t !! "state" = Some "READY" /\
  count is_status_call t = S k /\
  count is_sleep t = k /\
  ticks (snd (run w fuel initial)) = S k /\
  forall w', same_up_to k w w' -> run w' fuel initial = run w fuel initial.
Proof.
  intros Hs Hr Hw Hbefore Hready Hfuel. cbv zeta.
  destruct (run_ready w fuel k Hs Hr Hw Hbefore Hready Hfuel)
    as (Hc & Hfail & Hout & _ & Hpoll & Hsl & Hticks).
  split; [exact Hc | ]. split; [exact Hfail | ].
  rewrite Hout. unfold ready_outputs. destruct (reported_metrics w) as [[c u] d].
  split; [reflexivity | ]. split; [reflexivity | ].
  split; [exact Hpoll | ]. split; [exact Hsl | ]. split; [exact Hticks | ].
  intros w' Hsame. apply (run_same_up_to w w' k fuel Hsame Hready).
Qed.

Lemma ready_wins_over_timeout_witness :
  supplied world_late_ready "crawler-name" /\
  waitForCompletion world_late_ready = true /\
  ready_at world_late_ready 8 /\
  timed_out_at world_late_ready 8 = true /\
  same_up_to 8 world_late_ready world_late_ready_other /\
  fst (run world_late_ready 12 initial) = Normal tt /\
  outputs_of (trace (snd (run world_late_ready 12 initial))) !! "state" = Some "READY" /\
  run world_late_ready_other 12 initial = run world_late_ready 12 initial.
Proof.
  assert (Hs : supplied world_late_ready "crawler-name").
  { unfold supplied. vm_compute. discriminate. }
  assert (Hw : waitForCompletion world_late_ready = true) by reflexivity.
  assert (Hready : ready_at world_late_ready 8).
  { eexists. split; reflexivity. }
  assert (Hbefore : forall j, (j < 8)%nat -> continues_at world_late_ready j).
  { intros j Hj.
    do 8 (destruct j as [ | j];
          [split; [eexists; split; reflexivity | reflexivity] | ]).
    lia. }
  assert (Hsame : same_up_to 8 world_late_ready world_late_ready_other).
  { split; [reflexivity | ]. split; [reflexivity | ]. split; [reflexivity | ].
    split.
    - intros n Hn. do 9 (destruct n as [ | n]; [reflexivity | ]). lia.
    - intros i name Hi. do 9 (destruct i as [ | i]; [reflexivity | ]). lia. }
  destruct (ready_wins_over_timeout world_late_ready 12 8 Hs eq_refl Hw Hbefore Hready)
    as (Hc & _ & _ & Hstate & _ & _ & _ & Hindep); [lia | ].
  split; [exact Hs | ]. split; [exact Hw | ]. split; [exact Hready | ].
  split; [reflexivity | ]. split; [exact Hsame | ]. split; [exact Hc | ].
  split; [exact Hstate | ]. apply Hindep. exact Hsame.
Defined.

(** ** The two remote rejections *)

(** When the start call is rejected, [run] stops there: it makes no status
    call and no metrics call, reads no clock, never sets the success output
    to true, and ends with the failure signal of the rejection and the
    success output false as its only output. *)
Theorem start_rejection_stops_run (w : World) (fuel : nat) (e : thrown) :
  supplied w "crawler-name" ->
  startCrawler w (crawlerName w) = Rejected e ->
  let t := trace (snd (run w fuel initial)) in
  run w fuel initial =
    (Normal tt,
     {| trace := [Info ("Starting crawler: " +:+ crawlerName w);
                  StartCrawlerCall (crawlerName w);
                  SetFailed (failure_message e);
                  SetOutput "success" "false"];
        polls := 0; ticks := 0 |}) /\
  failure_of t = Some (failure_message e) /\
  outputs_of t = {[ "success" := "false" ]} /\
  ~ In (SetOutput "success" "true") t /\
  count is_status_call t = 0%nat /\
  count is_metrics_call t = 0%nat.
Proof.
  intros Hs Hrej. cbv zeta.
  assert (Hrun : run w fuel initial =
    (Normal tt,
     {| trace := [Info ("Starting crawler: " +:+ crawlerName w);
                  StartCrawlerCall (crawlerName w);
                  SetFailed (failure_message e);
                  SetOutput "success" "false"];
        polls := 0; ticks := 0 |})).
  { rewrite run_of_body, (run_body_start_rejected w fuel e Hs Hrej). reflexivity. }
  rewrite Hrun. cbn [snd trace].
  split; [reflexivity | ]. split; [reflexivity | ]. split; [reflexivity | ].
  split; [ | split; reflexivity].
  intros Hin. simpl in Hin.
  destruct Hin as [H | [H | [H | [H | []]]]]; discriminate H.
Qed.

Lemma start_rejection_stops_run_witness :
  supplied world_start_rejected "crawler-name" /\
  failure_of (trace (snd (run world_start_rejected 4 initial))) =
    Some "Crawler with name events-crawler has already started" /\
  count is_status_call (trace (snd (run world_start_rejected 4 initial))) = 0%nat.
Proof.
  assert (Hs : supplied world_start_rejected "crawler-name").
  { unfold supplied. vm_compute. discriminate. }
  destruct (start_rejection_stops_run world_start_rejected 4 _ Hs eq_refl)
    as (_ & Hfail & _ & _ & Hpoll & _).
  split; [exact Hs | ]. split; [exact Hfail | exact Hpoll].
Defined.

(** When the status call of poll [k] is rejected, after [k] polls that went
    round the loop, [run] stops polling: it has made [k + 1] status calls
    and slept [k] times, makes no metrics call, and ends with the failure
    signal of the rejection and the success output false. *)
Theorem status_rejection_stops_polling (w : World) (fuel k : nat) (e : thrown) :
  supplied w "crawler-name" ->
  startCrawler w (crawlerName w) = Resolved tt ->
  waitForCompletion w = true ->
  (forall j, (j < k)%nat -> continues_at w j) ->
  status_at w k = Rejected e ->
  (k < fuel)%nat ->
  let t := trace (snd (run w fuel initial)) in
  fst (run w fuel initial) = Normal tt /\
  failure_of t = Some (failure_message e) /\
  outputs_of t = {[ "success" := "false" ]} /\
  count is_status_call t = S k /\
  count is_sleep t = k /\
  count is_metrics_call t = 0%nat.
Proof.
  intros Hs Hr Hw Hbefore Hrej Hfuel. cbv zeta.
  assert (Hx : loop_exit_from w fuel 0 = StatusFailed k e).
  { apply loop_exit_failed; assumption. }
  destruct (run_waiting_trace w fuel Hs Hr Hw) as [Hc _].
  destruct (run_waiting_calls w fuel Hs Hr Hw) as (_ & Hpoll & Hmet).
  pose proof (run_waiting_outputs w fuel Hs Hr Hw) as Hout.
  pose proof (run_waiting_failure w fuel Hs Hr Hw) as Hfail.
  pose proof (run_waiting_sleeps w fuel Hs Hr Hw) as Hsl.
  rewrite Hx in Hc, Hpoll, Hmet, Hout, Hfail, Hsl.
  split; [exact Hc | ]. split; [exact Hfail | ]. split; [exact Hout | ].
  split; [rewrite Hpoll; simpl; lia | ]. split; [rewrite Hsl; simpl; lia | exact Hmet].
Qed.

Lemma status_rejection_stops_polling_witness :
  supplied world_status_rejected "crawler-name" /\
  waitForCompletion world_status_rejected = true /\
  status_at world_status_rejected 1 = Rejected (ErrorInstance "Rate exceeded") /\
  failure_of (trace (snd (run world_status_rejected 5 initial))) = Some "Rate exceeded" /\
  count is_status_call (trace (snd (run world_status_rejected 5 initial))) = 2%nat.
Proof.
  assert (Hs : supplied world_status_rejected "crawler-name").
  { unfold supplied. vm_compute. discriminate. }
  assert (Hw : waitForCompletion world_status_rejected = true) by reflexivity.
  assert (Hbefore : forall j, (j < 1)%nat -> continues_at world_status_rejected j).
  { intros j Hj. destruct j as [ | j]; [ | lia].
    split; [eexists; split; reflexivity | reflexivity]. }
  destruct (status_rejection_stops_polling world_status_rejected 5 1 _
              Hs eq_refl Hw Hbefore eq_refl) as (_ & Hfail & _ & Hpoll & _); [lia | ].
  split; [exact Hs | ]. split; [exact Hw | ]. split; [reflexivity | ].
  split; [exact Hfail | exact Hpoll].
Defined.

(** ** Inputs that [run] does not read *)

Lemma poll_ext (w w' : World) (name : string) (tm : jsnum) (st : Z) (tms : jsnum) :
  same_for_run w w' ->
  forall (fuel : nat) (m : Machine),
    poll w' fuel name tm st tms m = poll w fuel name tm st tms m.
Proof.
  intros (_ & _ & _ & _ & Hmetrics & Hclock & Hstatus).
  induction fuel as [ | fuel IH]; intros m; [reflexivity | ].
  pose proof (Hstatus (polls m) name) as Hsame.
  destruct (getCrawler w (polls m) name) as [r | e] eqn:Hreply.
  - destruct (is_ready (state_of r)) eqn:Hr.
    + rewrite (poll_ready w' _ _ _ _ _ m r Hsame Hr).
      rewrite (poll_ready w _ _ _ _ _ m r Hreply Hr).
      rewrite (metrics_trace_same w w' name Hmetrics). reflexivity.
    + destruct (js_gt (dateNow w (ticks m) - st) tms) eqn:Hgt.
      * rewrite (poll_timed_out w' _ _ _ _ _ m r Hsame Hr);
          [ | rewrite Hclock; exact Hgt].
        rewrite (poll_timed_out w _ _ _ _ _ m r Hreply Hr Hgt). reflexivity.
      * rewrite (poll_round w' _ _ _ _ _ m r Hsame Hr);
          [ | rewrite Hclock; exact Hgt].
        rewrite (poll_round w _ _ _ _ _ m r Hreply Hr Hgt). apply IH.
  - rewrite (poll_rejected w' _ _ _ _ _ m e Hsame).
    rewrite (poll_rejected w _ _ _ _ _ m e Hreply). reflexivity.
Qed.

(** [run] depends on the inputs only through the three it reads. *)
Lemma run_ext (w w' : World) (fuel : nat) :
  same_for_run w w' -> run w' fuel initial = run w fuel initial.
Proof.
  intros Hsame. pose proof Hsame as (Hname & Hwait & Hminutes & Hstart & _ & Hclock & _).
  assert (Hbody : run_body w' fuel initial = run_body w fuel initial).
  { assert (Hread : read_inputs w' initial = read_inputs w initial).
    { unfold read_inputs, getInput. rewrite Hname, Hwait, Hminutes. reflexivity. }
    unfold run_body, bind. rewrite Hread.
    destruct (read_inputs w initial) as [[[[name wait] minutes] | e | ] m0];
      [ | reflexivity | reflexivity].
    unfold orchestrate, send_StartCrawler. eff_unfold. rewrite Hstart.
    destruct (startCrawler w name) as [[] | e]; eff_unfold; [ | reflexivity].
    destruct wait; [ | reflexivity].
    rewrite Hclock. apply (poll_ext w w' _ _ _ _ Hsame). }
  rewrite !run_of_body, Hbody. reflexivity.
Qed.

(** Setting, or changing, an input other than crawler-name,
    wait-for-completion and timeout-minutes changes nothing of what [run]
    does; so for catalog-id, which the action accepts. *)
Theorem unread_inputs_change_nothing (w : World) (key value : string) (fuel : nat) :
  key <> "crawler-name" ->
  key <> "wait-for-completion" ->
  key <> "timeout-minutes" ->
  run (with_input w key value) fuel initial = run w fuel initial.
Proof.
  intros Hname Hwait Hminutes. apply run_ext.
  unfold same_for_run, with_input. cbn [inputs startCrawler getCrawler getCrawlerMetrics dateNow].
  rewrite !lookup_insert_ne by assumption.
  repeat split; reflexivity.
Qed.

Lemma unread_inputs_change_nothing_witness :
  "catalog-id" <> "crawler-name" /\
  run (with_input world_ready_second "catalog-id" "987654321098") 6 initial =
    run world_ready_second 6 initial.
Proof.
  assert (Hname : "catalog-id" <> "crawler-name") by discriminate.
  split; [exact Hname | ].
  apply (unread_inputs_change_nothing world_ready_second "catalog-id" "987654321098" 6 Hname);
    discriminate.
Defined.

(** ** Text after the minutes *)

Lemma pretty_go_append (x : N) :
  forall s s' : string, pretty_N_go x s +:+ s' = pretty_N_go x (s +:+ s').
Proof.
  induction (N.lt_wf_0 x) as [x _ IH]. intros s s'.
  destruct (N.eq_dec x 0) as [-> | Hpos].
  - rewrite !pretty_N_go_0. reflexivity.
  - assert (Hx : (0 < x)%N) by lia.
    rewrite (pretty_N_go_step x s), (pretty_N_go_step x (s +:+ s')) by exact Hx.
    rewrite IH by (apply N.div_lt; lia). reflexivity.
Qed.

Lemma parse_digits_numeral_then (p : positive) (c : ascii) (r : string) :
  digit_of c = None ->
  parse_digits (pretty_N_go (N.pos p) (String c r)) false 0 = Some (Z.pos p).
Proof.
  intros Hc. destruct (parse_digits_pretty (N.pos p)) as [n Hn]. rewrite Hn.
  cbn [parse_digits]. rewrite Hc. reflexivity.
Qed.

(** [parseInt(_, 10)] reads the numeral at the front and ignores what
    follows it. *)
Lemma parseInt10_prefix (z : Z) (c : ascii) (r : string) :
  digit_of c = None ->
  parseInt10 (pretty z +:+ String c r) = round_double z.
Proof.
  intros Hc. destruct z as [ | p | p].
  - change (pretty 0 +:+ String c r) with (String "0" (String c r)).
    rewrite (parseInt10_digit_first "0" (String c r) 0 eq_refl).
    cbn [parse_digits]. change (digit_of "0") with (Some 0). cbv iota.
    cbn [parse_digits]. rewrite Hc. reflexivity.
  - change (pretty (Z.pos p)) with (pretty_N_go (N.pos p) "").
    rewrite pretty_go_append. change ("" +:+ String c r) with (String c r).
    destruct (pretty_go_head (N.pos p) eq_refl (String c r)) as (c' & r' & d & Hs & Hd).
    pose proof (parse_digits_numeral_then p c r Hc) as Hp.
    rewrite Hs in Hp |- *. rewrite (parseInt10_digit_first c' r' d Hd), Hp. reflexivity.
  - change (pretty (Z.neg p) +:+ String c r)
      with (String "-" (pretty_N_go (N.pos p) "" +:+ String c r)).
    rewrite pretty_go_append. change ("" +:+ String c r) with (String c r).
    unfold parseInt10. cbn [trim_start].
    change (is_space "-") with false. change (is_lead "-") with false. cbv iota.
    rewrite (parse_digits_numeral_then p c r Hc). reflexivity.
Qed.

Lemma timeout_text_not_empty (z : Z) (s : string) :
  String.eqb (pretty z +:+ s) "" = false.
Proof.
  pose proof (pretty_not_empty z) as Hne.
  destruct (pretty z) as [ | c r]; [discriminate Hne | reflexivity].
Qed.

(** When the timeout-minutes value is the decimal numeral of [z] (at most
    2^53 in magnitude) followed by text that does not start with a digit (a
    fraction, a unit), [run] does not reject it: it reads timeoutMinutes
    as [z], and when it waits it keeps polling as long as no more than
    [z * 60 * 1000] milliseconds have elapsed and fails with the timeout
    message for [z] minutes at the first poll after that. *)
Theorem timeout_minutes_ignores_suffix
    (w : World) (z : Z) (c : ascii) (r : string) (m : Machine) :
  supplied w "crawler-name" ->
  input_value w "timeout-minutes" = pretty z +:+ String c r ->
  digit_of c = None ->
  Z.abs z <= 2 ^ 53 ->
  (exists wait, read_inputs w m = (Normal (crawlerName w, wait, Num z), m)) /\
  (startCrawler w (crawlerName w) = Resolved tt ->
   waitForCompletion w = true ->
   (forall fuel,
      (forall j, (j < fuel)%nat ->
         not_ready_at w j /\ elapsed_at w j <= z * 60 * 1000) ->
      fst (run w fuel initial) = Pending /\
      failure_of (trace (snd (run w fuel initial))) = None) /\
   (forall k,
      (forall j, (j <= k)%nat -> not_ready_at w j) ->
      z * 60 * 1000 < elapsed_at w k ->
      exists k0, (k0 <= k)%nat /\
        forall fuel, (k0 < fuel)%nat ->
          fst (run w fuel initial) = Normal tt /\
          failure_of (trace (snd (run w fuel initial))) =
            Some ("Crawler did not complete within " +:+ pretty z +:+ " minutes"))).
Proof.
  intros Hs Hvalue Hc Hsafe.
  assert (Hn : timeoutMinutes w = Num z).
  { unfold timeoutMinutes, js_or. rewrite Hvalue, timeout_text_not_empty.
    rewrite parseInt10_prefix by exact Hc. apply round_double_safe. exact Hsafe. }
  assert (Hbound : forall i, timed_out_at w i = (z * 60 * 1000 <? elapsed_at w i)).
  { intros i. unfold timed_out_at, timeoutMs. rewrite Hn. reflexivity. }
  split.
  { exists (waitForCompletion w). rewrite (read_inputs_supplied w m Hs), Hn. reflexivity. }
  intros Hr Hw. split.
  - intros fuel Hall.
    assert (Hx : loop_exit_from w fuel 0 = StillPolling fuel).
    { apply loop_exit_pending. intros j Hj. destruct (Hall j Hj) as [Hnot Hle].
      split; [exact Hnot | ]. rewrite Hbound. apply Z.ltb_ge. exact Hle. }
    destruct (run_waiting_trace w fuel Hs Hr Hw) as [Hfst _].
    pose proof (run_waiting_failure w fuel Hs Hr Hw) as Hfail.
    rewrite Hx in Hfst, Hfail. split; [exact Hfst | exact Hfail].
  - intros k Hnot Hlate.
    assert (Hout : timed_out_at w k = true).
    { rewrite Hbound. apply Z.ltb_lt. exact Hlate. }
    destruct (run_times_out w k Hs Hr Hw Hnot Hout) as (k0 & Hle & Hrun).
    exists k0. split; [exact Hle | ]. intros fuel Hfuel.
    destruct (Hrun fuel Hfuel) as (Hfst & Hfail & _).
    split; [exact Hfst | ].
    rewrite Hfail, Hn. unfold timeout_message.
    rewrite (safe_integer_text z Hsafe). reflexivity.
Qed.

Lemma timeout_minutes_ignores_suffix_witness :
  supplied world_fraction "crawler-name" /\
  input_value world_fraction "timeout-minutes" = pretty 1 +:+ String "." "5" /\
  read_inputs world_fraction initial = (Normal ("events-crawler", true, Num 1), initial) /\
  exists k0, (k0 <= 6)%nat /\
    failure_of (trace (snd (run world_fraction (S k0) initial))) =
      Some "Crawler did not complete within 1 minutes".
Proof.
  assert (Hs : supplied world_fraction "crawler-name").
  { unfold supplied. vm_compute. discriminate. }
  assert (Hvalue : input_value world_fraction "timeout-minutes" =
                   pretty 1 +:+ String "." "5") by reflexivity.
  assert (Hsafe : Z.abs 1 <= 2 ^ 53) by (vm_compute; discriminate).
  destruct (timeout_minutes_ignores_suffix world_fraction 1 "." "5" initial
              Hs Hvalue eq_refl Hsafe) as [_ Hrun].
  destruct (Hrun eq_refl eq_refl) as [_ Hfires].
  assert (Hnot : forall j, (j <= 6)%nat -> not_ready_at world_fraction j).
  { intros j _. eexists. split; reflexivity. }
  assert (Hlate : 1 * 60 * 1000 < elapsed_at world_fraction 6).
  { vm_compute. reflexivity. }
  destruct (Hfires 6%nat Hnot Hlate) as (k0 & Hle & Hfail).
  destruct (Hfail (S k0) (Nat.lt_succ_diag_r k0)) as [_ Hmsg].
  split; [exact Hs | ]. split; [exact Hvalue | ]. split; [reflexivity | ].
  exists k0. split; [exact Hle | exact Hmsg].
Defined.
